(** * Meshroom node descriptors: attribute schema, sizing model and
    command-line execution ([meshroom/core/desc.py])

  A shallow embedding of [desc.py].  Python objects become records and
  inductive types, exceptions become the [Raise] case of a result type,
  and the code that touches the operating system (log file, status file,
  external process) is written in a small state-and-exception monad over
  an explicit world. *)

From Stdlib Require Import ZArith QArith Qpower String Ascii List Bool Lia.
From Stdlib Require Import DecimalString.
From Stdlib Require Import Floats.SpecFloat.
From stdpp Require Import base gmap strings list.

Set Warnings "-register-all".
Local Open Scope Z_scope.

(** ** Python values, exceptions and the builtins [desc.py] calls *)

Module Py.

(** The exception classes that [desc.py] raises or lets through.  *)
Inductive exn : Type :=
| ValueError
| TypeError
| SyntaxError
| AttributeError
| KeyError
| NotImplementedError
| RuntimeError (msg : string)
| OSError
| NoSuchProcess
| OtherError (cls : string).

(** [except ValueError] *)
Definition is_ValueError (e : exn) : bool :=
  match e with ValueError => true | _ => false end.

(** [except psutil.NoSuchProcess] *)
Definition is_NoSuchProcess (e : exn) : bool :=
  match e with NoSuchProcess => true | _ => false end.

(** A Python call either returns or raises. *)
Inductive result (A : Type) : Type :=
| Ok (a : A)
| Raise (e : exn).
Arguments Ok {A} a.
Arguments Raise {A} e.

Definition bind {A B} (r : result A) (k : A -> result B) : result B :=
  match r with
  | Ok a => k a
  | Raise e => Raise e
  end.

Definition returns {A} (r : result A) : bool :=
  match r with Ok _ => true | Raise _ => false end.

(** *** Double-precision floats

    A Python [float] is an IEEE 754 binary64 number: [spec_float] at
    precision 53 and exponent bound 1024.  Conversions and division
    round to nearest, ties to even. *)

(** [float(z)] for an [int]: the nearest double, [OverflowError] when
    it is out of range. *)
Definition float_of_int (z : Z) : result spec_float :=
  match binary_normalize 53 1024 z 0 false with
  | S754_infinity _ => Raise (OtherError "OverflowError")
  | f => Ok f
  end.

(** [x / y] on floats: [ZeroDivisionError] on a zero divisor. *)
Definition float_truediv (x y : spec_float) : result spec_float :=
  match y with
  | S754_zero _ => Raise (OtherError "ZeroDivisionError")
  | _ => Ok (SFdiv 53 1024 x y)
  end.

(** [(-1)^sx * r] *)
Definition signed (sx : bool) (r : Z) : Z := if sx then - r else r.

(** The integer a finite double [(-1)^sx * m * 2^e] is rounded up to. *)
Definition ceil_finite (sx : bool) (m : positive) (e : Z) : Z :=
  let v := signed sx (Z.pos m) in
  if 0 <=? e then v * 2 ^ e else - ((- v) / 2 ^ (- e)).

(** [int(math.ceil(x))] *)
Definition math_ceil (x : spec_float) : result Z :=
  match x with
  | S754_zero _ => Ok 0
  | S754_infinity _ => Raise (OtherError "OverflowError")
  | S754_nan => Raise ValueError
  | S754_finite sx m e => Ok (ceil_finite sx m e)
  end.

(** The exact value of a double, as a rational (0 for the non-numbers,
    which no conversion of an [int] produces). *)
Definition float_value (x : spec_float) : Q :=
  match x with
  | S754_finite sx m e =>
      (inject_Z (signed sx (Z.pos m)) * Qpower 2 e)%Q
  | _ => 0%Q
  end.

(** The values a descriptor can be handed.  A float is kept as the
    rational it stands for, a dict keeps its insertion order (the order in which
    [items()] iterates), [PCallable] is a function object and [PJSValue]
    a [QJSValue] coming from the QML side. *)
Inductive value : Type :=
| PNone
| PBool (b : bool)
| PInt (z : Z)
| PFloat (q : Q)
| PStr (s : string)
| PList (l : list value)
| PTuple (l : list value)
| PDict (items : list (value * value))
| PCallable (tag : string)
| PJSValue.

(** [isinstance(v, T)]; [bool] is a subclass of [int]. *)
Definition isinstance_str (v : value) : bool :=
  match v with PStr _ => true | _ => false end.
Definition isinstance_bool (v : value) : bool :=
  match v with PBool _ => true | _ => false end.
Definition isinstance_int (v : value) : bool :=
  match v with PInt _ | PBool _ => true | _ => false end.
Definition isinstance_float (v : value) : bool :=
  match v with PFloat _ => true | _ => false end.
Definition isinstance_dict (v : value) : bool :=
  match v with PDict _ => true | _ => false end.
Definition isinstance_list_tuple (v : value) : bool :=
  match v with PList _ | PTuple _ => true | _ => false end.
Definition isinstance_JSValue (v : value) : bool :=
  match v with PJSValue => true | _ => false end.
Definition callable (v : value) : bool :=
  match v with PCallable _ => true | _ => false end.

(** [isinstance(v, collections.abc.Iterable)] and what iterating yields
    (a string yields its characters, a dict its keys). *)
Definition chars (s : string) : list value :=
  map (fun c => PStr (String c EmptyString)) (list_ascii_of_string s).

Definition iterate (v : value) : option (list value) :=
  match v with
  | PStr s => Some (chars s)
  | PList l | PTuple l => Some l
  | PDict items => Some (map fst items)
  | _ => None
  end.

(** Truth value of an object: [bool(v)], [if v:]. *)
Definition truthy (v : value) : bool :=
  match v with
  | PNone => false
  | PBool b => b
  | PInt z => negb (z =? 0)
  | PFloat q => negb (Qeq_bool q 0)
  | PStr s => negb (String.eqb s EmptyString)
  | PList l | PTuple l => negb (Nat.eqb (List.length l) 0)
  | PDict items => negb (Nat.eqb (List.length items) 0)
  | PCallable _ => true
  | PJSValue => true
  end.

(** [str.lower()] on the ASCII letters. *)
Definition lower_ascii (c : ascii) : ascii :=
  let n := nat_of_ascii c in
  if (Nat.leb 65 n && Nat.leb n 90)%bool then ascii_of_nat (n + 32) else c.

Fixpoint lower (s : string) : string :=
  match s with
  | EmptyString => EmptyString
  | String c s' => String (lower_ascii c) (lower s')
  end.

Definition str_in (s : string) (l : list string) : bool :=
  existsb (String.eqb s) l.

(** [distutils.util.strtobool]: 1 for a true token, 0 for a false
    token, [ValueError] for anything else. *)
Definition strtobool (val : string) : result Z :=
  let val := lower val in
  if str_in val ["y"; "yes"; "t"; "true"; "on"; "1"]%string then Ok 1
  else if str_in val ["n"; "no"; "f"; "false"; "off"; "0"]%string then Ok 0
  else Raise ValueError.

(** [str.split(sep)] for a one-character separator. *)
Fixpoint split_acc (sep : ascii) (s : string) (cur : string) : list string :=
  match s with
  | EmptyString => [cur]
  | String c s' =>
      if Ascii.eqb c sep then cur :: split_acc sep s' EmptyString
      else split_acc sep s' (cur +:+ String c EmptyString)
  end.

Definition split (sep : ascii) (s : string) : list string :=
  split_acc sep s EmptyString.

(** [str.replace(a, b)] for single characters. *)
Fixpoint replace_char (a b : ascii) (s : string) : string :=
  match s with
  | EmptyString => EmptyString
  | String c s' => String (if Ascii.eqb c a then b else c) (replace_char a b s')
  end.

(** The library functions whose text is not part of the repository:
    parsing of literals and numbers, [str()], [==], path normalisation,
    and the constructors of classes other than the scalar ones. *)
Record Lib : Type := MkLib {
  literal_eval : string -> result value;      (* ast.literal_eval *)
  int_of_string : string -> option Z;         (* int("...") *)
  float_of_string : string -> option Q;       (* float("...") *)
  repr : value -> string;                     (* str(v) for a non-string *)
  py_eq : value -> value -> bool;             (* v == w *)
  normpath : string -> string;                (* os.path.normpath *)
  construct : value -> value -> result value  (* type(example)(v) *)
}.

Section Builtins.
Context (L : Lib).

(** [int(v)] *)
Definition py_int (v : value) : result Z :=
  match v with
  | PBool b => Ok (if b then 1 else 0)
  | PInt z => Ok z
  | PFloat q => Ok (Z.quot (Qnum q) (Zpos (Qden q)))
  | PStr s =>
      match int_of_string L s with
      | Some z => Ok z
      | None => Raise ValueError
      end
  | _ => Raise TypeError
  end.

(** [float(v)] *)
Definition py_float (v : value) : result Q :=
  match v with
  | PBool b => Ok (if b then 1%Q else 0%Q)
  | PInt z => bind (float_of_int z) (fun x => Ok (float_value x))
  | PFloat q => Ok q
  | PStr s =>
      match float_of_string L s with
      | Some q => Ok q
      | None => Raise ValueError
      end
  | _ => Raise TypeError
  end.

(** [str(v)] *)
Definition py_str (v : value) : string :=
  match v with
  | PStr s => s
  | _ => repr L v
  end.

(** [type(example)(v)]: the class of [example] called on [v]. *)
Definition call_type_of (example v : value) : result value :=
  match example with
  | PBool _ => Ok (PBool (truthy v))
  | PInt _ => bind (py_int v) (fun z => Ok (PInt z))
  | PFloat _ => bind (py_float v) (fun q => Ok (PFloat q))
  | PStr _ => Ok (PStr (py_str v))
  | _ => construct L example v
  end.

(** [v in l] *)
Definition py_in (v : value) (l : list value) : bool :=
  existsb (py_eq L v) l.
End Builtins.

End Py.

(** ** AttributeSchema: the descriptor classes *)

Module Desc.
Import Py.

(** The fields every [Attribute] stores ([Attribute.__init__]). *)
Record AttrBase : Type := MkBase {
  name : string;
  label : string;
  description : string;
  value : Py.value;             (* the default value *)
  uid : list Z;
  group : string;
  advanced : bool;
  semantic : string;
  enabled : Py.value;           (* a bool or a function of the node *)
  uidIgnoreValue : option Py.value
}.

(** The concrete descriptor classes.  [range] is a [VariantList]
    ([None] and [()] are the empty list); [values] of a [ChoiceParam]
    is non-empty ([assert values]). *)
Inductive Attribute : Type :=
| ListAttribute (elementDesc : Attribute) (base : AttrBase) (joinChar : string)
| GroupAttribute (groupDesc : list Attribute) (base : AttrBase) (joinChar : string)
| File (base : AttrBase)
| BoolParam (base : AttrBase)
| IntParam (base : AttrBase) (range : list Py.value)
| FloatParam (base : AttrBase) (range : list Py.value)
| ChoiceParam (base : AttrBase) (values : list Py.value) (exclusive : bool)
    (joinChar : string)
| StringParam (base : AttrBase)
| ColorParam (base : AttrBase).

Definition base_of (d : Attribute) : AttrBase :=
  match d with
  | ListAttribute _ b _ | GroupAttribute _ b _ | File b | BoolParam b
  | IntParam b _ | FloatParam b _ | ChoiceParam b _ _ _ | StringParam b
  | ColorParam b => b
  end.

(** [attr.name], [attr.value] *)
Definition attr_name (d : Attribute) : string := name (base_of d).
Definition attr_value (d : Attribute) : Py.value := value (base_of d).

(** [isinstance(desc, ListAttribute)], [isinstance(desc, IntParam)] *)
Definition is_ListAttribute (d : Attribute) : bool :=
  match d with ListAttribute _ _ _ => true | _ => false end.
Definition is_IntParam (d : Attribute) : bool :=
  match d with IntParam _ _ => true | _ => false end.

(** The constructors with the defaults of the Python signatures. *)
Definition mkBase (n : string) (v : Py.value) : AttrBase :=
  MkBase n n EmptyString v [] "allParams" false EmptyString (PBool true) None.

Definition mkList (elementDesc : Attribute) (n : string) : Attribute :=
  ListAttribute elementDesc (mkBase n (PList [])) " ".
Definition mkGroup (groupDesc : list Attribute) (n : string) : Attribute :=
  GroupAttribute groupDesc (mkBase n (PDict [])) " ".
Definition mkFile (n : string) (v : Py.value) : Attribute := File (mkBase n v).
Definition mkBool (n : string) (v : Py.value) : Attribute := BoolParam (mkBase n v).
Definition mkInt (n : string) (v : Py.value) (range : list Py.value) : Attribute :=
  IntParam (mkBase n v) range.
Definition mkFloat (n : string) (v : Py.value) (range : list Py.value) : Attribute :=
  FloatParam (mkBase n v) range.
Definition mkChoice (n : string) (v : Py.value) (values : list Py.value)
  (exclusive : bool) : Attribute :=
  ChoiceParam (mkBase n v) values exclusive " ".
Definition mkString (n : string) (v : Py.value) : Attribute := StringParam (mkBase n v).
Definition mkColor (n : string) (v : Py.value) : Attribute := ColorParam (mkBase n v).

(** *** validateValue *)

Section Validate.
Context (L : Py.Lib).

(** [ListAttribute.validateValue] *)
Definition ListAttribute_validateValue (v : Py.value) : result Py.value :=
  if isinstance_JSValue v then Raise ValueError
  else
    bind (match v with
          | PStr s => literal_eval L s
          | _ => Ok v
          end)
      (fun v =>
         if negb (isinstance_list_tuple v) then Raise ValueError
         else Ok v).

(** [set(value.keys()).intersection([attr.name for attr in groupDesc])]
    is non-empty: some key of the dict is the name of a child. *)
Definition key_is (k : Py.value) (n : string) : bool :=
  match k with PStr s => String.eqb s n | _ => false end.

Definition commonKeys_nonempty (items : list (Py.value * Py.value))
  (names : list string) : bool :=
  existsb (fun kv => existsb (key_is (fst kv)) names) items.

(** [GroupAttribute.validateValue] *)
Definition GroupAttribute_validateValue (groupDesc : list Attribute)
  (v : Py.value) : result Py.value :=
  if isinstance_JSValue v then Raise ValueError
  else
    bind (match v with
          | PStr s => literal_eval L s
          | _ => Ok v
          end)
      (fun v =>
         match v with
         | PDict items =>
             if negb (Nat.eqb (List.length groupDesc) 0) then
               if negb (commonKeys_nonempty items (map attr_name groupDesc))
               then Raise ValueError
               else Ok v
             else Ok v
         | PList l | PTuple l =>
             if negb (Nat.eqb (List.length l) (List.length groupDesc))
             then Raise ValueError
             else Ok v
         | _ => Raise ValueError
         end).

(** [File.validateValue] *)
Definition File_validateValue (v : Py.value) : result Py.value :=
  match v with
  | PStr s =>
      if truthy v then Ok (PStr (replace_char "\" "/" (normpath L s)))
      else Ok (PStr EmptyString)
  | _ => Raise ValueError
  end.

(** [try: body except: raise ValueError(...)] with a bare [except] *)
Definition except_all_ValueError {A} (body : result A) : result A :=
  match body with
  | Ok a => Ok a
  | Raise _ => Raise ValueError
  end.

(** [BoolParam.validateValue] *)
Definition BoolParam_validateValue (v : Py.value) : result Py.value :=
  except_all_ValueError
    (match v with
     | PStr s => bind (strtobool s) (fun z => Ok (PBool (truthy (PInt z))))
     | _ => Ok (PBool (truthy v))
     end).

(** [IntParam.validateValue] *)
Definition IntParam_validateValue (v : Py.value) : result Py.value :=
  except_all_ValueError (bind (py_int L v) (fun z => Ok (PInt z))).

(** [FloatParam.validateValue] *)
Definition FloatParam_validateValue (v : Py.value) : result Py.value :=
  except_all_ValueError (bind (py_float L v) (fun q => Ok (PFloat q))).

(** [ChoiceParam.conformValue]; [_valueType] is the class of the first
    allowed value. *)
Definition valueType_example (values : list Py.value) : Py.value :=
  hd PNone values.

Definition conformValue (values : list Py.value) (val : Py.value)
  : result Py.value :=
  bind (call_type_of L (valueType_example values) val)
    (fun val =>
       if negb (py_in L val values) then Raise ValueError
       else Ok val).

(** [[f(v) for v in l]]: stops at the first exception. *)
Fixpoint map_result {A B} (f : A -> result B) (l : list A) : result (list B) :=
  match l with
  | [] => Ok []
  | x :: l' => bind (f x) (fun y => bind (map_result f l') (fun ys => Ok (y :: ys)))
  end.

(** [ChoiceParam.validateValue] *)
Definition ChoiceParam_validateValue (values : list Py.value)
  (exclusive : bool) (v : Py.value) : result Py.value :=
  if exclusive then conformValue values v
  else
    let v := match v with
             | PStr s => PList (map PStr (split "," s))
             | _ => v
             end in
    match iterate v with
    | None => Raise ValueError
    | Some elems =>
        bind (map_result (conformValue values) elems) (fun l => Ok (PList l))
    end.

(** [StringParam.validateValue] *)
Definition StringParam_validateValue (v : Py.value) : result Py.value :=
  if negb (isinstance_str v) then Raise ValueError else Ok v.

(** [ColorParam.validateValue] *)
Definition ColorParam_validateValue (v : Py.value) : result Py.value :=
  match v with
  | PStr s =>
      if Nat.ltb 1 (List.length (split " " s)) then Raise ValueError
      else Ok v
  | _ => Raise ValueError
  end.

(** [self.validateValue(value)], dispatched on the class of [self]. *)
Definition validateValue (d : Attribute) (v : Py.value) : result Py.value :=
  match d with
  | ListAttribute _ _ _ => ListAttribute_validateValue v
  | GroupAttribute groupDesc _ _ => GroupAttribute_validateValue groupDesc v
  | File _ => File_validateValue v
  | BoolParam _ => BoolParam_validateValue v
  | IntParam _ _ => IntParam_validateValue v
  | FloatParam _ _ => FloatParam_validateValue v
  | ChoiceParam _ values exclusive _ => ChoiceParam_validateValue values exclusive v
  | StringParam _ => StringParam_validateValue v
  | ColorParam _ => ColorParam_validateValue v
  end.

End Validate.

(** *** checkValueTypes *)

(** [self.name + ":" + str(", " + self.name + ":").join(invalidParams)] *)
Definition joinInvalid (n : string) (invalidParams : list string) : string :=
  n +:+ ":" +:+ String.concat (", " +:+ n +:+ ":") invalidParams.

(** [if name: invalidParams.append(name)] *)
Definition appendIfName (nm : string) (invalidParams : list string) : list string :=
  if negb (String.eqb nm EmptyString) then nm :: invalidParams else invalidParams.

(** [checkValueTypes], dispatched on the class of [self].  [ColorParam]
    defines none and inherits [Attribute.checkValueTypes], which raises
    [NotImplementedError]. *)
Fixpoint checkValueTypes (d : Attribute) : result string :=
  match d with
  | ListAttribute elementDesc _ _ => checkValueTypes elementDesc
  | GroupAttribute groupDesc b _ =>
      bind ((fix loop (l : list Attribute) : result (list string) :=
               match l with
               | [] => Ok []
               | attr :: l' =>
                   bind (checkValueTypes attr) (fun nm =>
                   bind (loop l') (fun rest => Ok (appendIfName nm rest)))
               end) groupDesc)
        (fun invalidParams =>
           if negb (Nat.eqb (List.length invalidParams) 0)
           then Ok (joinInvalid (name b) invalidParams)
           else Ok EmptyString)
  | File b =>
      if (negb (isinstance_str (value b)) && negb (callable (value b)))%bool
      then Ok (name b) else Ok EmptyString
  | BoolParam b =>
      if negb (isinstance_bool (value b)) then Ok (name b) else Ok EmptyString
  | IntParam b range =>
      if (negb (isinstance_int (value b))
          || (negb (Nat.eqb (List.length range) 0)
              && negb (forallb isinstance_int range)))%bool
      then Ok (name b) else Ok EmptyString
  | FloatParam b range =>
      if (negb (isinstance_float (value b))
          || (negb (Nat.eqb (List.length range) 0)
              && negb (forallb isinstance_float range)))%bool
      then Ok (name b) else Ok EmptyString
  | ChoiceParam _ _ _ _ => Ok EmptyString
  | StringParam b =>
      if negb (isinstance_str (value b)) then Ok (name b) else Ok EmptyString
  | ColorParam _ => Raise NotImplementedError
  end.

(** The loop of [GroupAttribute.checkValueTypes] on its own. *)
Fixpoint collectInvalid (l : list Attribute) : result (list string) :=
  match l with
  | [] => Ok []
  | attr :: l' =>
      bind (checkValueTypes attr) (fun nm =>
      bind (collectInvalid l') (fun rest => Ok (appendIfName nm rest)))
  end.

(** *** matchDescription *)

Section Match.
Context (L : Py.Lib).

(** [Attribute.matchDescription]: only [ValueError] is caught. *)
Definition Attribute_matchDescription (d : Attribute) (v : Py.value)
  : result bool :=
  match validateValue L d v with
  | Ok _ => Ok true
  | Raise e => if is_ValueError e then Ok false else Raise e
  end.

(** [value[0]] of a non-empty string, list or tuple. *)
Definition getitem0 (v : Py.value) : result Py.value :=
  match v with
  | PStr (String c _) => Ok (PStr (String c EmptyString))
  | PList (x :: _) | PTuple (x :: _) => Ok x
  | PStr EmptyString | PList [] | PTuple [] => Raise (OtherError "IndexError")
  | PDict _ => Raise KeyError
  | _ => Raise TypeError
  end.

(** [matchDescription(value, strict)], dispatched on the class of
    [self].  In the group case [look] evaluates
    [k in attrMap and attrMap[k].matchDescription(v, strict)], where
    [attrMap] maps a name to the last child carrying it, and [loop]
    counts the items for which it is true. *)
Fixpoint matchDescription (d : Attribute) (v : Py.value) (strict : bool)
  : result bool :=
  match d with
  | ListAttribute elementDesc _ _ =>
      bind (Attribute_matchDescription d v) (fun ok =>
        if negb ok then Ok false
        else if truthy v then
          bind (getitem0 v) (fun v0 => matchDescription elementDesc v0 strict)
        else Ok true)
  | GroupAttribute groupDesc _ _ =>
      bind (Attribute_matchDescription d v) (fun ok =>
        if negb ok then Ok false
        else
          match v with
          | PDict items =>
              bind ((fix loop (its : list (Py.value * Py.value)) : result Z :=
                       match its with
                       | [] => Ok 0
                       | (k, v') :: rest =>
                           bind ((fix look (ds : list Attribute) (acc : result bool)
                                    : result bool :=
                                    match ds with
                                    | [] => acc
                                    | a :: ds' =>
                                        look ds'
                                          (if key_is k (attr_name a)
                                           then matchDescription a v' strict
                                           else acc)
                                    end) groupDesc (Ok false))
                             (fun b =>
                                bind (loop rest) (fun n =>
                                  Ok (if b : bool then 1 + n else n)))
                       end) items)
                (fun matchCount =>
                   if strict then
                     Ok ((matchCount =? Z.of_nat (List.length items))
                         && (Z.of_nat (List.length items)
                             =? Z.of_nat (List.length groupDesc)))%bool
                   else Ok (0 <? matchCount))
          | _ => Raise AttributeError
          end)
  | _ => Attribute_matchDescription d v
  end.

(** [attrMap = {attr.name: attr for attr in groupDesc}] and [attrMap.get(k)] *)
Fixpoint attrMap_get (groupDesc : list Attribute) (k : Py.value)
  (acc : option Attribute) : option Attribute :=
  match groupDesc with
  | [] => acc
  | a :: ds' => attrMap_get ds' k (if key_is k (attr_name a) then Some a else acc)
  end.

(** [k in attrMap and attrMap[k].matchDescription(v, strict)] *)
Definition childMatches (groupDesc : list Attribute) (strict : bool)
  (k v : Py.value) : result bool :=
  match attrMap_get groupDesc k None with
  | Some a => matchDescription a v strict
  | None => Ok false
  end.

(** The counting loop of [GroupAttribute.matchDescription]. *)
Fixpoint countMatches (groupDesc : list Attribute) (strict : bool)
  (items : list (Py.value * Py.value)) : result Z :=
  match items with
  | [] => Ok 0
  | (k, v) :: rest =>
      bind (childMatches groupDesc strict k v) (fun b =>
        bind (countMatches groupDesc strict rest) (fun n =>
          Ok (if b : bool then 1 + n else n)))
  end.

End Match.

(** *** Induction over descriptors, through the children of a group *)

Section NestedInduction.
Context (P : Attribute -> Prop).
Context (HList : forall e b j, P e -> P (ListAttribute e b j)).
Context (HGroup : forall gd b j, Forall P gd -> P (GroupAttribute gd b j)).
Context (HFile : forall b, P (File b)).
Context (HBool : forall b, P (BoolParam b)).
Context (HInt : forall b r, P (IntParam b r)).
Context (HFloat : forall b r, P (FloatParam b r)).
Context (HChoice : forall b vs ex j, P (ChoiceParam b vs ex j)).
Context (HString : forall b, P (StringParam b)).
Context (HColor : forall b, P (ColorParam b)).

Fixpoint Attribute_nested_ind (d : Attribute) : P d :=
  match d with
  | ListAttribute e b j => HList e b j (Attribute_nested_ind e)
  | GroupAttribute gd b j =>
      HGroup gd b j
        ((fix children (l : list Attribute) : Forall P l :=
            match l with
            | [] => @List.Forall_nil _ P
            | a :: l' => @List.Forall_cons _ P a l' (Attribute_nested_ind a) (children l')
            end) gd)
  | File b => HFile b
  | BoolParam b => HBool b
  | IntParam b r => HInt b r
  | FloatParam b r => HFloat b r
  | ChoiceParam b vs ex j => HChoice b vs ex j
  | StringParam b => HString b
  | ColorParam b => HColor b
  end.

End NestedInduction.

End Desc.

(** ** Node instances, as the sizing strategies read them *)

Module Node.
Import Py.

(** Modelled from the spec: the attribute instance of a node
    ([meshroom/core/attribute.py] is not part of the sources).  It refers
    to its descriptor, holds the current value, and is a link when it is
    connected to the output of an upstream node, named by [linkParam]
    (upstream node, attribute). *)
Record Attribute : Type := MkAttribute {
  desc : Desc.Attribute;
  value : Py.value;
  linkParam : option (string * string)
}.

(** Modelled from the spec: the node instance ([meshroom/core/node.py]
    is not part of the sources): its computed logical size and its
    attributes by name. *)
Record Node : Type := MkNode {
  size : Z;
  attributes : gmap string Attribute
}.

(** The nodes of the graph by name; links are resolved in it. *)
Abbreviation Graph := (gmap string Node).

(** [param.isLink] *)
Definition isLink (param : Attribute) : bool :=
  match linkParam param with Some _ => true | None => false end.

(** [node.attribute(name)] *)
Definition attribute (node : Node) (nm : string) : result Attribute :=
  match attributes node !! nm with
  | Some a => Ok a
  | None => Raise KeyError
  end.

(** [param.getLinkParam().node] *)
Definition getLinkParam_node (g : Graph) (param : Attribute) : result Node :=
  match linkParam param with
  | Some (up, _) =>
      match g !! up with
      | Some n => Ok n
      | None => Raise KeyError
      end
  | None => Raise AttributeError
  end.

(** [len(param)] of a list attribute: its number of elements. *)
Definition len (param : Attribute) : result Z :=
  match value param with
  | PList l => Ok (Z.of_nat (List.length l))
  | _ => Raise TypeError
  end.

End Node.

(** ** SizingModel *)

Module Range.

(** [class Range] *)
Record Range : Type := MkRange {
  iteration : Z;
  blockSize : Z;
  fullSize : Z
}.

Definition start (r : Range) : Z := iteration r * blockSize r.

Definition effectiveBlockSize (r : Range) : Z :=
  let remaining := (fullSize r - start r) + 1 in
  if remaining >=? blockSize r then blockSize r else remaining.

Definition end_ (r : Range) : Z := start r + effectiveBlockSize r.

Definition last (r : Range) : Z := end_ r - 1.

Definition toDict (r : Range) : list (string * Z) :=
  [ ("rangeIteration"%string, iteration r);
    ("rangeStart"%string, start r);
    ("rangeEnd"%string, end_ r);
    ("rangeLast"%string, last r);
    ("rangeBlockSize"%string, blockSize r);
    ("rangeEffectiveBlockSize"%string, effectiveBlockSize r);
    ("rangeFullSize"%string, fullSize r) ].

(** The indices a range covers: the half-open interval [start, end). *)
Definition covers (r : Range) (x : Z) : bool :=
  ((start r <=? x) && (x <? end_ r))%bool.

End Range.

Module Parallelization.
Import Py.

(** [class Parallelization] *)
Record Parallelization : Type := MkParallelization {
  staticNbBlocks : Z;
  blockSize : Z
}.

(** [range(n)] *)
Definition py_range (n : Z) : list Z :=
  map Z.of_nat (seq 0 (Z.to_nat n)).

(** [int(math.ceil(float(size) / float(blockSize)))]: both operands
    are converted to doubles, the division is the double-precision one,
    and the quotient is rounded up. *)
Definition ceil_div (size blockSize : Z) : result Z :=
  bind (float_of_int size) (fun x =>
  bind (float_of_int blockSize) (fun y =>
  bind (float_truediv x y) math_ceil)).

(** [getSizes]: (blockSize, fullSize, nbBlocks), or [None] *)
Definition getSizes (p : Parallelization) (node : Node.Node)
  : result (option (Z * Z * Z)) :=
  let size := Node.size node in
  if negb (blockSize p =? 0) then
    bind (ceil_div size (blockSize p)) (fun nbBlocks =>
      Ok (Some (blockSize p, size, nbBlocks)))
  else if negb (staticNbBlocks p =? 0) then
    Ok (Some (1, staticNbBlocks p, staticNbBlocks p))
  else Ok None.

(** [blockSize, fullSize, nbBlocks = self.getSizes(node)]: unpacking
    [None] raises [TypeError]. *)
Definition unpack3 (sizes : option (Z * Z * Z)) : result (Z * Z * Z) :=
  match sizes with
  | Some t => Ok t
  | None => Raise TypeError
  end.

(** [getRange] *)
Definition getRange (p : Parallelization) (node : Node.Node) (iteration : Z)
  : result Range.Range :=
  bind (getSizes p node) (fun sizes =>
  bind (unpack3 sizes) (fun '(blockSize, fullSize, nbBlocks) =>
    Ok (Range.MkRange iteration blockSize fullSize))).

(** [getRanges] *)
Definition getRanges (p : Parallelization) (node : Node.Node)
  : result (list Range.Range) :=
  bind (getSizes p node) (fun sizes =>
  bind (unpack3 sizes) (fun '(blockSize, fullSize, nbBlocks) =>
    Ok (map (fun i => Range.MkRange i blockSize fullSize) (py_range nbBlocks)))).

End Parallelization.

Module DynamicNodeSize.
Import Py.

(** [DynamicNodeSize(param).computeSize(node)] *)
Definition computeSize (param_name : string) (g : Node.Graph) (node : Node.Node)
  : result Py.value :=
  bind (Node.attribute node param_name) (fun param =>
    if Node.isLink param then
      bind (Node.getLinkParam_node g param) (fun up => Ok (PInt (Node.size up)))
    else if Desc.is_ListAttribute (Node.desc param) then
      bind (Node.len param) (fun n => Ok (PInt n))
    else if Desc.is_IntParam (Node.desc param) then
      Ok (Node.value param)
    else Ok (PInt 1)).

End DynamicNodeSize.

Module MultiDynamicNodeSize.
Import Py.

(** The body of the [for] loop, with [size] the running sum. *)
Fixpoint computeSize_loop (params : list string) (g : Node.Graph)
  (node : Node.Node) (size : Z) : result Z :=
  match params with
  | [] => Ok size
  | param_name :: rest =>
      bind (Node.attribute node param_name) (fun param =>
        if Node.isLink param then
          bind (Node.getLinkParam_node g param) (fun up =>
            computeSize_loop rest g node (size + Node.size up))
        else if Desc.is_ListAttribute (Node.desc param) then
          bind (Node.len param) (fun n =>
            computeSize_loop rest g node (size + n))
        else computeSize_loop rest g node (size + 1))
  end.

(** [MultiDynamicNodeSize(params).computeSize(node)] *)
Definition computeSize (params : list string) (g : Node.Graph)
  (node : Node.Node) : result Z :=
  computeSize_loop params g node 0.

End MultiDynamicNodeSize.

Module StaticNodeSize.

(** [StaticNodeSize(size).computeSize(node)] *)
Definition computeSize (size : Z) (node : Node.Node) : Z := size.

End StaticNodeSize.

(** ** CommandExecutor: [CommandLineNode.processChunk] and [stopProcess] *)

Module Exec.
Import Py.

(** The persisted status record of a chunk. *)
Record Status : Type := MkStatus {
  commandLine : option string;
  returnCode : option Z
}.

(** Modelled from the spec: the chunk ([meshroom/core/node.py] is not
    part of the sources).  [subprocess] is [None] when the chunk object
    has no such attribute ([hasattr] is false), [Some None] when the
    attribute holds [None], and [Some (Some pid)] when it holds the
    handle of a live process. *)
Record Chunk : Type := MkChunk {
  name : string;
  logFile : string;
  status : Status;
  subprocess : option (option Z);
  statThread_proc : option Z
}.

(** What the operating system was asked to do, in order. *)
Inductive Event : Type :=
| EvOpenWrite (path : string)
| EvSaveStatus (st : Status)
| EvPrint (line : string)
| EvPopen (cmd : string) (pid : Z)
| EvCommunicate (pid : Z)
| EvOpenRead (path : string)
| EvTerminate (pid : Z).

(** The world outside the Python process: the files by path, the status
    record last persisted, the processes that still exist, and the log of
    what was done. *)
Record World : Type := MkWorld {
  files : gmap string string;
  statusFile : option Status;
  existing : gset Z;
  trace : list Event
}.

(** How the environment answers: whether the log can be opened for
    writing, whether the status file can be saved, what [psutil.Popen]
    gives for a command line, the bytes the process prints before it
    exits (or the exception that interrupts the wait), its exit code, the
    descendants psutil enumerates for a process that exists, and the
    decoder of the locale's encoding, which a file opened in text mode is
    read through: the text of the bytes, or [UnicodeDecodeError]. *)
Record Env : Type := MkEnv {
  open_write_fails : string -> option exn;
  save_fails : option exn;
  popen_result : string -> result Z;
  communicate_result : Z -> result string;
  returncode : Z -> Z;
  children : Z -> list Z;
  decode_log : string -> result string
}.

(** A method working on a chunk and the world: state passing with
    exceptions; the state is kept when an exception is raised. *)
Definition M (A : Type) : Type := Chunk * World -> result A * (Chunk * World).

Definition ret {A} (a : A) : M A := fun s => (Ok a, s).
Definition raise {A} (e : exn) : M A := fun s => (Raise e, s).
Definition mbind {A B} (m : M A) (k : A -> M B) : M B :=
  fun s =>
    match m s with
    | (Ok a, s') => k a s'
    | (Raise e, s') => (Raise e, s')
    end.

#[global] Instance M_ret : MRet M := @ret.
#[global] Instance M_bind : MBind M := fun A B k m => mbind m k.

(** [try: body finally: fin] *)
Definition try_finally {A} (body : M A) (fin : M unit) : M A :=
  fun s =>
    match body s with
    | (r, s') =>
        match fin s' with
        | (Ok _, s'') => (r, s'')
        | (Raise e, s'') => (Raise e, s'')
        end
    end.

(** [try: body except psutil.NoSuchProcess: pass] *)
Definition try_except_NoSuchProcess (body : M unit) : M unit :=
  fun s =>
    match body s with
    | (Ok u, s') => (Ok u, s')
    | (Raise e, s') => if is_NoSuchProcess e then (Ok tt, s') else (Raise e, s')
    end.

(** [for x in l: body(x)] *)
Fixpoint for_each {A} (l : list A) (body : A -> M unit) : M unit :=
  match l with
  | [] => ret tt
  | x :: l' => body x ;; for_each l' body
  end.

Definition get_chunk : M Chunk := fun s => (Ok (fst s), s).
Definition get_world : M World := fun s => (Ok (snd s), s).
Definition modify_chunk (f : Chunk -> Chunk) : M unit :=
  fun s => (Ok tt, (f (fst s), snd s)).
Definition modify_world (f : World -> World) : M unit :=
  fun s => (Ok tt, (fst s, f (snd s))).
Definition log_event (e : Event) : M unit :=
  modify_world (fun w => MkWorld (files w) (statusFile w) (existing w) (trace w ++ [e])).

Definition set_commandLine (cmd : string) (c : Chunk) : Chunk :=
  MkChunk (name c) (logFile c) (MkStatus (Some cmd) (returnCode (status c)))
    (subprocess c) (statThread_proc c).
Definition set_returnCode (rc : Z) (c : Chunk) : Chunk :=
  MkChunk (name c) (logFile c) (MkStatus (commandLine (status c)) (Some rc))
    (subprocess c) (statThread_proc c).
Definition set_subprocess (h : option Z) (c : Chunk) : Chunk :=
  MkChunk (name c) (logFile c) (status c) (Some h) (statThread_proc c).
Definition set_statThread_proc (h : option Z) (c : Chunk) : Chunk :=
  MkChunk (name c) (logFile c) (status c) (subprocess c) h.

Definition write_file (path content : string) (w : World) : World :=
  MkWorld (<[path := content]> (files w)) (statusFile w) (existing w) (trace w).
Definition write_status (st : Status) (w : World) : World :=
  MkWorld (files w) (Some st) (existing w) (trace w).
Definition add_process (pid : Z) (w : World) : World :=
  MkWorld (files w) (statusFile w) ({[pid]} ∪ existing w) (trace w).
Definition remove_process (pid : Z) (w : World) : World :=
  MkWorld (files w) (statusFile w) (existing w ∖ {[pid]}) (trace w).

Definition quote_char : string := String (ascii_of_nat 34) EmptyString.
Definition newline : string := String (ascii_of_nat 10) EmptyString.

Definition LF : ascii := ascii_of_nat 10.
Definition CR : ascii := ascii_of_nat 13.

(** Reading in text mode with the default [newline=None]: the line
    endings CR LF and CR are both read as LF. *)
Fixpoint universal_newlines (s : string) : string :=
  match s with
  | EmptyString => EmptyString
  | String c s' =>
      if Ascii.eqb c CR then
        match s' with
        | String c' s'' =>
            if Ascii.eqb c' LF then String LF (universal_newlines s'')
            else String LF (universal_newlines s')
        | EmptyString => String LF EmptyString
        end
      else String c (universal_newlines s')
  end.

(** The strict UTF-8 decoder, for an environment whose locale is UTF-8.
    The state is the number of continuation bytes still expected and the
    interval the next one must lie in; the text is kept in its UTF-8
    form. *)
Definition utf8_step (st : option (nat * Z * Z)) (c : ascii)
  : option (nat * Z * Z) :=
  let b := Z.of_N (N_of_ascii c) in
  let within (lo hi : Z) := ((lo <=? b) && (b <=? hi))%bool in
  match st with
  | None => None
  | Some (O, _, _) =>
      if b <? 128 then Some (O, 128, 191)
      else if within 194 223 then Some (1%nat, 128, 191)
      else if b =? 224 then Some (2%nat, 160, 191)
      else if (within 225 236 || within 238 239)%bool then Some (2%nat, 128, 191)
      else if b =? 237 then Some (2%nat, 128, 159)
      else if b =? 240 then Some (3%nat, 144, 191)
      else if within 241 243 then Some (3%nat, 128, 191)
      else if b =? 244 then Some (3%nat, 128, 143)
      else None
  | Some (S n, lo, hi) =>
      if within lo hi then Some (n, 128, 191) else None
  end.

Definition utf8_valid (bytes : string) : bool :=
  match fold_left utf8_step (list_ascii_of_string bytes) (Some (O, 128, 191)) with
  | Some (O, _, _) => true
  | _ => false
  end.

Definition utf8_decode (bytes : string) : result string :=
  if utf8_valid bytes then Ok bytes else Raise (OtherError "UnicodeDecodeError").

(** ['Error on node "{}":\nLog:\n{}'.format(chunk.name, logContent)] *)
Definition error_message (chunk_name logContent : string) : string :=
  "Error on node " +:+ quote_char +:+ chunk_name +:+ quote_char +:+ ":"
  +:+ newline +:+ "Log:" +:+ newline +:+ logContent.

Section CommandLineNode.
Context (E : Env).
(** [self.buildCommandLine], which subclasses override. *)
Context (buildCommandLine : Chunk -> result string).

(** [open(chunk.logFile, 'w')]: truncates the file. *)
Definition open_write (path : string) : M unit :=
  match open_write_fails E path with
  | Some e => raise e
  | None =>
      modify_world (write_file path EmptyString) ;;
      log_event (EvOpenWrite path)
  end.

(** Modelled from the spec: [chunk.saveStatusFile()] persists the
    status record of the chunk. *)
Definition saveStatusFile : M unit :=
  match save_fails E with
  | Some e => raise e
  | None =>
      c ← get_chunk;
      modify_world (write_status (status c)) ;;
      log_event (EvSaveStatus (status c))
  end.

Definition print (line : string) : M unit := log_event (EvPrint line).

(** [psutil.Popen(shlex.split(cmd), stdout=logF, stderr=logF)] *)
Definition Popen (cmd : string) : M Z :=
  match popen_result E cmd with
  | Raise e => raise e
  | Ok pid =>
      modify_world (add_process pid) ;;
      log_event (EvPopen cmd pid) ;;
      ret pid
  end.

(** [proc.communicate()] then [proc.wait()]: blocks until the process
    has exited; what it printed is in the log file by then. *)
Definition communicate_wait (pid : Z) (log : string) : M unit :=
  match communicate_result E pid with
  | Raise e => raise e
  | Ok out =>
      w ← get_world;
      modify_world (write_file log (default EmptyString (files w !! log) +:+ out)) ;;
      modify_world (remove_process pid) ;;
      log_event (EvCommunicate pid)
  end.

(** [with open(chunk.logFile, 'r') as logF: ''.join(logF.readlines())]:
    the file is opened in text mode, so that its bytes go through the
    decoder of the locale (strict: bytes that do not decode raise) and
    every line ending is read as a line feed. *)
Definition read_file (path : string) : M string :=
  w ← get_world;
  match files w !! path with
  | None => raise OSError
  | Some content =>
      log_event (EvOpenRead path) ;;
      match decode_log E content with
      | Raise e => raise e
      | Ok text => ret (universal_newlines text)
      end
  end.

(** The [try] block of [processChunk]. *)
Definition processChunk_try : M unit :=
  c ← get_chunk;
  open_write (logFile c) ;;
  ( match buildCommandLine c with
    | Raise e => raise e
    | Ok cmd =>
        modify_chunk (set_commandLine cmd) ;;
        saveStatusFile ;;
        print (" - commandLine: " +:+ cmd) ;;
        print (" - logFile: " +:+ logFile c) ;;
        pid ← Popen cmd;
        modify_chunk (set_subprocess (Some pid)) ;;
        modify_chunk (set_statThread_proc (Some pid)) ;;
        communicate_wait pid (logFile c) ;;
        modify_chunk (set_returnCode (returncode E pid))
    end ) ;;
  c ← get_chunk;
  match subprocess c with
  | Some (Some pid) =>
      if negb (returncode E pid =? 0) then
        logContent ← read_file (logFile c);
        raise (RuntimeError (error_message (name c) logContent))
      else ret tt
  | _ => raise AttributeError
  end.

(** [CommandLineNode.processChunk]: [try: ... except: raise
    finally: chunk.subprocess = None] *)
Definition processChunk : M unit :=
  try_finally processChunk_try (modify_chunk (set_subprocess None)).

(** [process.terminate()] *)
Definition terminate (pid : Z) : M unit :=
  w ← get_world;
  if decide (pid ∈ existing w) then log_event (EvTerminate pid)
  else raise NoSuchProcess.

(** [process.children(recursive=True)]: psutil raises
    [NoSuchProcess] when the process itself is gone. *)
Definition children_recursive (pid : Z) : M (list Z) :=
  w ← get_world;
  if decide (pid ∈ existing w) then ret (children E pid)
  else raise NoSuchProcess.

(** [CommandLineNode.stopProcess]: the list of processes is built before
    the [try]. *)
Definition stopProcess : M unit :=
  c ← get_chunk;
  match subprocess c with
  | None => ret tt
  | Some None => ret tt
  | Some (Some pid) =>
      descendants ← children_recursive pid;
      let processes := descendants ++ [pid] in
      try_except_NoSuchProcess (for_each processes terminate)
  end.

End CommandLineNode.

(** The processes that were sent the termination signal. *)
Definition terminated (w : World) : list Z :=
  omap (fun e => match e with EvTerminate pid => Some pid | _ => None end) (trace w).

End Exec.

(** ** The amended reading of [checkValueTypes], and sample data *)

Module Reading.
Import Py.
Import Desc.

(** No [ColorParam] anywhere in the descriptor. *)
Fixpoint color_free (d : Attribute) : bool :=
  match d with
  | ColorParam _ => false
  | ListAttribute elementDesc _ _ => color_free elementDesc
  | GroupAttribute groupDesc _ _ => forallb color_free groupDesc
  | _ => true
  end.

Definition nonempty (s : string) : bool := negb (String.eqb s EmptyString).

(** The string the code of [checkValueTypes] computes, as a plain
    function of the descriptor: the own name of a scalar whose default
    (or range) fails the type test of its kind, nothing for a choice, the
    string of the element for a list, and for a group the join of the
    code, which puts [group:] in front of the string of each child that
    is not empty.  The string of a child is prefixed once, however many
    paths it holds. *)
Fixpoint checkValueTypes_reading (d : Attribute) : string :=
  match d with
  | ListAttribute elementDesc _ _ => checkValueTypes_reading elementDesc
  | GroupAttribute groupDesc b _ =>
      String.concat ", "
        (map (fun r => name b +:+ ":" +:+ r)
           (List.filter nonempty (map checkValueTypes_reading groupDesc)))
  | File b =>
      if (isinstance_str (value b) || callable (value b))%bool
      then EmptyString else name b
  | BoolParam b =>
      if isinstance_bool (value b) then EmptyString else name b
  | IntParam b range =>
      if (isinstance_int (value b) && forallb isinstance_int range)%bool
      then EmptyString else name b
  | FloatParam b range =>
      if (isinstance_float (value b) && forallb isinstance_float range)%bool
      then EmptyString else name b
  | ChoiceParam _ _ _ _ => EmptyString
  | StringParam b | ColorParam b =>
      if isinstance_str (value b) then EmptyString else name b
  end.

(** The type test of each scalar kind on its default value and, for
    Int and Float, on the elements of its range. *)
Definition default_matches_kind (d : Attribute) : bool :=
  match d with
  | File b => (isinstance_str (value b) || callable (value b))%bool
  | BoolParam b => isinstance_bool (value b)
  | IntParam b range =>
      (isinstance_int (value b) && forallb isinstance_int range)%bool
  | FloatParam b range =>
      (isinstance_float (value b) && forallb isinstance_float range)%bool
  | StringParam b | ColorParam b => isinstance_str (value b)
  | _ => true
  end.

(** The report as the specification words it: one colon-joined path
    [group:child], [group:nested:grandchild] for each invalid descendant.
    A scalar that fails its type test is the path made of its own name; a
    choice is never invalid and a list stands for its element
    descriptor. *)
Fixpoint invalid_paths (d : Attribute) : list string :=
  match d with
  | ListAttribute elementDesc _ _ => invalid_paths elementDesc
  | GroupAttribute groupDesc b _ =>
      map (fun p => name b +:+ ":" +:+ p) (flat_map invalid_paths groupDesc)
  | ChoiceParam _ _ _ _ => []
  | File b | BoolParam b | IntParam b _ | FloatParam b _ | StringParam b
  | ColorParam b =>
      if default_matches_kind d then [] else [name b]
  end.

(** The descriptors on which the code keeps the paths apart: every
    scalar has a name, and no child of a group holds more than one
    invalid descendant. *)
Fixpoint single_paths (d : Attribute) : bool :=
  match d with
  | ListAttribute elementDesc _ _ => single_paths elementDesc
  | GroupAttribute groupDesc _ _ =>
      forallb (fun c => single_paths c
                        && Nat.leb (List.length (invalid_paths c)) 1)%bool
        groupDesc
  | ChoiceParam _ _ _ _ => true
  | File b | BoolParam b | IntParam b _ | FloatParam b _ | StringParam b
  | ColorParam b => nonempty (name b)
  end.

(** The scalar kinds: File, Bool, Int, Float, String and Color. *)
Definition is_plain (d : Attribute) : bool :=
  match d with
  | File _ | BoolParam _ | IntParam _ _ | FloatParam _ _ | StringParam _
  | ColorParam _ => true
  | _ => false
  end.

End Reading.

Module Samples.
Import Py.
Import Desc.

(** A library that parses no string: every literal, integer and float
    text is rejected, equality is decided on scalars, paths are left as
    they are. *)
Definition scalar_eq (v w : Py.value) : bool :=
  match v, w with
  | PNone, PNone => true
  | PBool a, PBool b => Bool.eqb a b
  | PInt a, PInt b => a =? b
  | PBool a, PInt b | PInt b, PBool a => (if a then 1 else 0) =? b
  | PStr a, PStr b => String.eqb a b
  | _, _ => false
  end.

Definition plain_lib : Py.Lib :=
  MkLib (fun _ => Raise SyntaxError) (fun _ => None) (fun _ => None)
    (fun _ => "<object>"%string) scalar_eq (fun s => s) (fun _ _ => Raise TypeError).

(** A node whose only attribute is an unlinked [IntParam] named "n"
    holding 5. *)
Definition int_node : Node.Node :=
  Node.MkNode 1
    {[ "n"%string := Node.MkAttribute (mkInt "n" (PInt 0) []) (PInt 5) None ]}.

(** A group with the two integer children a and b. *)
Definition group_ab : Attribute :=
  mkGroup [mkInt "a" (PInt 0) []; mkInt "b" (PInt 0) []] "g".

(** A group with a valid child, an invalid child and a nested group
    holding one invalid grandchild. *)
Definition group_nested : Attribute :=
  mkGroup
    [ mkBool "flag" (PBool true);
      mkInt "child" (PStr "three") [];
      mkGroup [mkString "ok" (PStr "text"); mkFloat "grandchild" (PInt 1) []]
        "nested" ]
    "group".

(** A group whose nested group holds two invalid children. *)
Definition group_nested_two : Attribute :=
  mkGroup
    [ mkGroup [mkInt "x" (PStr "one") []; mkBool "y" (PInt 1)] "nested" ]
    "group".

(** A chunk whose program prints "boom" and exits with code 2. *)
Definition failing_env : Exec.Env :=
  Exec.MkEnv (fun _ => None) None (fun _ => Ok 42) (fun _ => Ok "boom"%string)
    (fun _ => 2) (fun _ => []) Exec.utf8_decode.

Definition sample_build (c : Exec.Chunk) : result string :=
  Ok ("aliceVision_run --input x")%string.
Definition fresh_chunk : Exec.Chunk :=
  Exec.MkChunk "Node_1(0)" "/cache/Node/ab12/0.log" (Exec.MkStatus None None) None None.
Definition empty_world : Exec.World := Exec.MkWorld ∅ None ∅ [].

(** A chunk running process 10, whose descendants are 11 and 12; the
    child 11 has already exited, 12 and 10 still exist. *)
Definition tree_env : Exec.Env :=
  Exec.MkEnv (fun _ => None) None (fun _ => Ok 10) (fun _ => Ok EmptyString)
    (fun _ => 0) (fun pid => if pid =? 10 then [11; 12] else [])
    Exec.utf8_decode.
Definition children_of_10 : list Z := Exec.children tree_env 10.
Definition running_chunk : Exec.Chunk :=
  Exec.MkChunk "Node_1(0)" "/cache/Node/ab12/0.log"
    (Exec.MkStatus (Some "aliceVision_run"%string) None) (Some (Some 10)) (Some 10).
Definition tree_world : Exec.World := Exec.MkWorld ∅ None {[10; 12]} [].

End Samples.

(** ** The uid path of a descriptor *)

Module Uid.
Import Desc.

(** [attr.uid]: the stored path for a scalar, [elementDesc.uid] for a
    list, and [retrieveChildrenUids] for a group, which extends one list
    with the [uid] of every child in turn. *)
Fixpoint uid_of (d : Attribute) : list Z :=
  match d with
  | ListAttribute elementDesc _ _ => uid_of elementDesc
  | GroupAttribute groupDesc _ _ =>
      (fix retrieveChildrenUids (l : list Attribute) : list Z :=
         match l with
         | [] => []
         | desc :: l' => uid_of desc ++ retrieveChildrenUids l'
         end) groupDesc
  | _ => uid (base_of d)
  end.

(** The scalar descriptors below a descriptor, from left to right. *)
Fixpoint leaves (d : Attribute) : list Attribute :=
  match d with
  | ListAttribute elementDesc _ _ => leaves elementDesc
  | GroupAttribute groupDesc _ _ =>
      (fix children (l : list Attribute) : list Attribute :=
         match l with
         | [] => []
         | desc :: l' => leaves desc ++ children l'
         end) groupDesc
  | _ => [d]
  end.

(** Every group below the descriptor, itself included, has a child. *)
Fixpoint groups_nonempty (d : Attribute) : bool :=
  match d with
  | ListAttribute elementDesc _ _ => groups_nonempty elementDesc
  | GroupAttribute groupDesc _ _ =>
      (negb (Nat.eqb (List.length groupDesc) 0)
       && forallb groups_nonempty groupDesc)%bool
  | _ => true
  end.

End Uid.

(** ** CommandLineNode.buildCommandLine and AVCommandLineNode *)

Module CommandLine.
Import Py.

(** Modelled from the spec: what [buildCommandLine] reads of
    [chunk.node] ([meshroom/core/node.py] is not part of the sources):
    the package of the node, whether it is parallelized, its size, the
    command template of its descriptor and the resolved parameters. *)
Record ChunkNode : Type := MkChunkNode {
  packageName : string;
  packageVersion : string;
  packageFullName : string;
  isParallelized : bool;
  size : Z;
  commandLine : string;
  cmdVars : list (string * string)
}.

(** [str.upper()] as it acts on ASCII text; sample data use it for the
    library function, which [buildCommandLine] takes as a parameter. *)
Definition upper_ascii (c : ascii) : ascii :=
  let n := nat_of_ascii c in
  if (Nat.leb 97 n && Nat.leb n 122)%bool then ascii_of_nat (n - 32) else c.

Fixpoint upper (s : string) : string :=
  match s with
  | EmptyString => EmptyString
  | String c s' => String (upper_ascii c) (upper s')
  end.

Section BuildCommandLine.
(** [str.upper()], of the Python library: it maps every cased
    character, not only the ASCII letters. *)
Context (str_upper : string -> string).
(** [os.environ] *)
Context (environ : gmap string string).
(** [str.format] of a template over a dict given as keyword
    arguments, for string values and for the integer values of
    [Range.toDict]; a placeholder without a value raises. *)
Context (format_str : string -> list (string * string) -> result string).
Context (format_int : string -> list (string * Z) -> result string).
(** [self.commandLineRange] *)
Context (commandLineRange : string).

(** The prefix: the rez launcher, unless the package is already
    active. *)
Definition cmdPrefix (node : ChunkNode) : string :=
  match environ !! "REZ_ENV"%string with
  | Some rez =>
      if truthy (PStr (packageVersion node)) then
        let alreadyInEnv :=
          String.prefix (packageVersion node)
            (default EmptyString
               (environ !! ("REZ_" +:+ str_upper (packageName node) +:+ "_VERSION"))) in
        if negb alreadyInEnv
        then rez +:+ " " +:+ packageFullName node +:+ " -- "
        else EmptyString
      else EmptyString
  | None => EmptyString
  end.

(** The suffix: the range arguments of a parallelized node. *)
Definition cmdSuffix (node : ChunkNode) (range : Range.Range) : result string :=
  if (isParallelized node && (size node >? 1))%bool then
    bind (format_int commandLineRange (Range.toDict range)) (fun s =>
      Ok (" " +:+ s))
  else Ok EmptyString.

(** [CommandLineNode.buildCommandLine] *)
Definition buildCommandLine (node : ChunkNode) (range : Range.Range)
  : result string :=
  let cmdPrefix := cmdPrefix node in
  bind (cmdSuffix node range) (fun cmdSuffix =>
    bind (format_str (commandLine node) (cmdVars node)) (fun body =>
      Ok (cmdPrefix +:+ body +:+ cmdSuffix))).

End BuildCommandLine.

(** The class attributes of [AVCommandLineNode]. *)
Record AVClass : Type := MkAVClass {
  cgroupParsed : bool;
  cmdMem : string;
  cmdCore : string
}.

Definition AV_initial : AVClass := MkAVClass false EmptyString EmptyString.

(** The quota probes of [meshroom.core.cgroup]. *)
Inductive Probe : Type := ProbeMemorySize | ProbeCpuCount.

(** Decimal text of an integer, as [str.format] writes it. *)
Definition str_of_int (z : Z) : string := NilZero.string_of_int (Z.to_int z).

(** [AVCommandLineNode.__init__], given what the two probes answer
    when asked; returns the class attributes and the probes that were
    asked. *)
Definition AV_init (getCgroupMemorySize getCgroupCpuCount : Z) (cls : AVClass)
  : AVClass * list Probe :=
  if negb (cgroupParsed cls) then
    let memSize := getCgroupMemorySize in
    let cmdMem := if memSize >? 0 then " --maxMemory=" +:+ str_of_int memSize
                  else EmptyString in
    let coresCount := getCgroupCpuCount in
    let cmdCore := if coresCount >? 0 then " --maxCores=" +:+ str_of_int coresCount
                   else EmptyString in
    (MkAVClass true cmdMem cmdCore, [ProbeMemorySize; ProbeCpuCount])
  else (cls, []).

(** [AVCommandLineNode.buildCommandLine] *)
Definition AV_buildCommandLine (cls : AVClass) (base : result string)
  : result string :=
  bind base (fun commandLineString =>
    Ok (commandLineString +:+ cmdMem cls +:+ cmdCore cls)).

End CommandLine.

(** ** InitNode *)

Module InitNode.
Import Py.

Section Methods.
(** Modelled from the spec: the three operations of an attribute
    instance ([meshroom/core/attribute.py] is not part of the sources):
    [resetValue()], [extend(values)] and the setter of [value]; the last
    two may reject their argument. *)
Context (resetValue : Node.Attribute -> Node.Attribute).
Context (extend : Node.Attribute -> Py.value -> result Node.Attribute).
Context (setValue : Node.Attribute -> Py.value -> result Node.Attribute).

(** [resetAttributes]: the named attributes the node has are reset. *)
Fixpoint resetAttributes (node : Node.Node) (attributeNames : list string)
  : Node.Node :=
  match attributeNames with
  | [] => node
  | attrName :: rest =>
      match Node.attributes node !! attrName with
      | Some a =>
          resetAttributes
            (Node.MkNode (Node.size node)
               (<[attrName := resetValue a]> (Node.attributes node))) rest
      | None => resetAttributes node rest
      end
  end.

(** The loop shared by [extendAttributes] and [setAttributes]: for
    each key the node has, the operation is applied to the attribute; the
    first exception ends the loop, with the node as it is by then. *)
Fixpoint update_each (op : Node.Attribute -> Py.value -> result Node.Attribute)
  (node : Node.Node) (attributesDict : list (string * Py.value))
  : result unit * Node.Node :=
  match attributesDict with
  | [] => (Ok tt, node)
  | (attr, v) :: rest =>
      match Node.attributes node !! attr with
      | Some a =>
          match op a v with
          | Ok a' =>
              update_each op
                (Node.MkNode (Node.size node)
                   (<[attr := a']> (Node.attributes node))) rest
          | Raise e => (Raise e, node)
          end
      | None => update_each op node rest
      end
  end.

(** [extendAttributes] *)
Definition extendAttributes := update_each extend.

(** [setAttributes] *)
Definition setAttributes := update_each setValue.

End Methods.

End InitNode.

(** ** The type of a validated value *)

Module Kinds.
Import Py.
Import Desc.

(** The Python type [validateValue] returns for each kind but the
    choice: [bool], [int] (and not [bool]), [float], [str], a list or
    tuple, and for a group a dict, a list or a tuple. *)
Definition has_kind (d : Attribute) (v : Py.value) : bool :=
  match d, v with
  | BoolParam _, PBool _ => true
  | IntParam _ _, PInt _ => true
  | FloatParam _ _, PFloat _ => true
  | (StringParam _ | ColorParam _ | File _), PStr _ => true
  | ListAttribute _ _ _, (PList _ | PTuple _) => true
  | GroupAttribute _ _ _, (PDict _ | PList _ | PTuple _) => true
  | _, _ => false
  end.

Definition is_ChoiceParam (d : Attribute) : bool :=
  match d with ChoiceParam _ _ _ _ => true | _ => false end.

(** The kinds whose [validateValue] calls no type constructor chosen
    by the data and no path normalisation. *)
Definition is_stable (d : Attribute) : bool :=
  match d with
  | File _ | ChoiceParam _ _ _ _ => false
  | _ => true
  end.

(** Whether a character occurs in a string. *)
Definition has_char (c : ascii) (s : string) : bool :=
  existsb (Ascii.eqb c) (list_ascii_of_string s).

End Kinds.

(** ** More sample data *)

Module Samples2.
Import Py.
Import Desc.

(** A node with a list attribute of three elements and an unlinked
    string attribute. *)
Definition list_node : Node.Node :=
  Node.MkNode 3
    {[ "viewpoints"%string :=
         Node.MkAttribute (mkList (mkInt "viewId" (PInt 0) []) "viewpoints")
           (PList [PInt 1; PInt 2; PInt 3]) None ]}.

End Samples2.

(** * Properties *)

(** ** Double-precision arithmetic on integers below 2^53 *)

Module FloatFacts.
Import Py.

Ltac pow_literals :=
  change (2 ^ 52) with 4503599627370496 in *;
  change (2 ^ 53) with 9007199254740992 in *;
  change (2 ^ 54) with 18014398509481984 in *.

Lemma digits2_size (p : positive) : digits2_pos p = Pos.size p.
Proof. induction p; simpl; congruence. Qed.

Lemma digits2_bounds (p : positive) :
  2 ^ (Z.pos (digits2_pos p) - 1) <= Z.pos p < 2 ^ Z.pos (digits2_pos p).
Proof.
  rewrite digits2_size. split.
  - pose proof (Pos.size_le p) as H.
    assert (H' : 2 ^ Z.pos (Pos.size p) <= Z.pos p~0).
    { rewrite <- Pos2Z.inj_pow. apply Pos2Z.pos_le_pos. exact H. }
    replace (Z.pos (Pos.size p)) with (Z.succ (Z.pos (Pos.size p) - 1)) in H' by lia.
    rewrite Z.pow_succ_r in H' by lia. lia.
  - pose proof (Pos.size_gt p) as H.
    rewrite <- Pos2Z.inj_pow. apply Pos2Z.pos_lt_pos. exact H.
Qed.

Lemma digits2_unique (p : positive) (d : Z) :
  2 ^ (d - 1) <= Z.pos p < 2 ^ d -> Z.pos (digits2_pos p) = d.
Proof.
  intros [Hlo Hhi]. pose proof (digits2_bounds p) as [Hl Hh].
  set (k := Z.pos (digits2_pos p)) in *.
  assert (0 < k) by (unfold k; lia).
  assert (Hd : 0 < d).
  { destruct (Z_lt_le_dec 0 d); auto.
    assert (2 ^ d <= 2 ^ 0) by (apply Z.pow_le_mono_r; lia). simpl in *. lia. }
  destruct (Z.lt_trichotomy k d) as [Hlt|[Heq|Hgt]]; auto.
  - assert (2 ^ k <= 2 ^ (d - 1)) by (apply Z.pow_le_mono_r; lia). lia.
  - assert (2 ^ d <= 2 ^ (k - 1)) by (apply Z.pow_le_mono_r; lia). lia.
Qed.

Lemma iter_xO (p : positive) (d : positive) :
  Z.pos (Pos.iter xO p d) = Z.pos p * 2 ^ Z.pos d.
Proof.
  revert p. induction d using Pos.peano_ind; intros p.
  - simpl. lia.
  - rewrite Pos.iter_succ. rewrite Pos2Z.inj_succ, Z.pow_succ_r by lia.
    rewrite Pos2Z.inj_xO. rewrite IHd. lia.
Qed.

Lemma fexp_small (e : Z) : -1021 <= e -> fexp 53 1024 e = e - 53.
Proof. intros H. unfold fexp, emin. lia. Qed.

Lemma loc_of_record (m : Z) (l : location) :
  loc_of_shr_record (shr_record_of_loc m l) = l.
Proof. destruct l as [|[ | | ]]; reflexivity. Qed.

Lemma shr_m_record (m : Z) (l : location) : shr_m (shr_record_of_loc m l) = m.
Proof. destruct l as [|[ | | ]]; reflexivity. Qed.

Lemma shr_fexp_canonical (m : positive) (e : Z) (l : location) :
  Z.pos (digits2_pos m) = 53 -> -1074 <= e ->
  shr_fexp 53 1024 (Z.pos m) e l = (shr_record_of_loc (Z.pos m) l, e).
Proof.
  intros Hd He. unfold shr_fexp.
  change (Zdigits2 (Z.pos m)) with (Z.pos (digits2_pos m)).
  rewrite Hd, fexp_small by lia.
  replace (53 + e - 53 - e) with 0 by lia. reflexivity.
Qed.

(** A mantissa of 53 digits with an exponent in range is already rounded. *)
Lemma binary_round_aux_canonical (sx : bool) (m : positive) (e : Z) :
  Z.pos (digits2_pos m) = 53 -> -1074 <= e <= 971 ->
  binary_round_aux 53 1024 sx (Z.pos m) e loc_Exact = S754_finite sx m e.
Proof.
  intros Hd He. unfold binary_round_aux.
  rewrite shr_fexp_canonical by (auto; lia).
  cbv beta iota zeta. rewrite loc_of_record, shr_m_record.
  cbn [round_nearest_even].
  rewrite shr_fexp_canonical by (auto; lia).
  cbv beta iota zeta. cbn [shr_m shr_record_of_loc].
  replace (1024 - 53) with 971 by reflexivity.
  destruct (e <=? 971) eqn:E; [reflexivity|]. apply Z.leb_gt in E. lia.
Qed.

(** [float(z)] for 0 < z < 2^53: the mantissa is z shifted to 53 digits. *)
Lemma binary_normalize_small (sx : bool) (p : positive) :
  Z.pos p < 2 ^ 53 ->
  exists (m : positive) (k : Z),
    binary_round 53 1024 sx p 0 = S754_finite sx m (- k) /\
    0 <= k <= 52 /\
    Z.pos m = Z.pos p * 2 ^ k /\
    Z.pos (digits2_pos m) = 53.
Proof.
  intros Hp. pose proof (digits2_bounds p) as [Hlo Hhi].
  set (d := Z.pos (digits2_pos p)) in *.
  assert (Hd1 : 1 <= d) by (unfold d; lia).
  assert (Hd : d <= 53).
  { destruct (Z_le_gt_dec d 53); auto.
    assert (2 ^ 53 <= 2 ^ (d - 1)) by (apply Z.pow_le_mono_r; lia). lia. }
  unfold binary_round.
  change (Z.pos (digits2_pos p) + 0) with (d + 0).
  rewrite Z.add_0_r, fexp_small by lia.
  unfold shl_align. rewrite Z.sub_0_r.
  destruct (d - 53) as [|q|q] eqn:Eq; try lia.
  - exists p, 0. rewrite binary_round_aux_canonical by (unfold d in *; lia).
    repeat split; unfold d in *; lia.
  - assert (Hm : Z.pos (Pos.iter xO p q) = Z.pos p * 2 ^ Z.pos q) by apply iter_xO.
    assert (Hq : Z.pos q = 53 - d) by lia.
    assert (Hdm : Z.pos (digits2_pos (Pos.iter xO p q)) = 53).
    { apply digits2_unique. rewrite Hm, Hq.
      assert (H1 : 2 ^ (53 - 1) = 2 ^ (d - 1) * 2 ^ (53 - d))
        by (rewrite <- Z.pow_add_r by lia; f_equal; lia).
      assert (H2 : 2 ^ 53 = 2 ^ d * 2 ^ (53 - d))
        by (rewrite <- Z.pow_add_r by lia; f_equal; lia).
      rewrite H1, H2.
      assert (0 < 2 ^ (53 - d)) by (apply Z.pow_pos_nonneg; lia). nia. }
    exists (Pos.iter xO p q), (Z.pos q).
    rewrite binary_round_aux_canonical by (auto; lia).
    repeat split; auto; lia.
Qed.

Lemma new_location_spec (m2 r : Z) :
  0 < m2 -> 0 <= r < m2 ->
  match new_location m2 r with
  | loc_Exact => r = 0
  | loc_Inexact Lt => 0 < r /\ 2 * r < m2
  | loc_Inexact Eq => 0 < r /\ 2 * r = m2
  | loc_Inexact Gt => 0 < r /\ 2 * r > m2
  end.
Proof.
  intros Hm Hr. unfold new_location.
  destruct (Z.even m2) eqn:Ev.
  - unfold new_location_even. destruct (r =? 0) eqn:E0.
    + apply Z.eqb_eq in E0. exact E0.
    + apply Z.eqb_neq in E0.
      destruct (Z.compare_spec (2 * r) m2); lia.
  - unfold new_location_odd. destruct (r =? 0) eqn:E0.
    + apply Z.eqb_eq in E0. exact E0.
    + apply Z.eqb_neq in E0.
      assert (Hodd : Z.odd m2 = true) by (rewrite <- Z.negb_even, Ev; reflexivity).
      apply Z.odd_spec in Hodd as [k Hk].
      destruct (Z.compare_spec (2 * r + 1) m2); lia.
Qed.

(** Rounding the quotient [q + r/m2] at exponent [e']: one bit is dropped
    when the quotient has 54 digits. *)
Lemma round_nearest_even_cases (h : Z) (l : location) :
  round_nearest_even h l = h \/ round_nearest_even h l = h + 1.
Proof.
  destruct l as [|[ | | ]]; simpl; auto. destruct (Z.even h); auto.
Qed.

Lemma shr_fexp_second (R : Z) (e : Z) :
  2 ^ 52 <= R <= 2 ^ 53 -> -1074 <= e <= 969 ->
  exists (M : positive) (E : Z),
    shr_fexp 53 1024 R e loc_Exact
    = ({| shr_m := Z.pos M; shr_r := false; shr_s := false |}, E) /\
    ((Z.pos M = R /\ E = e) \/ (R = 2 ^ 53 /\ Z.pos M = 2 ^ 52 /\ E = e + 1)).
Proof.
  intros HR He.
  change (2 ^ 53) with 9007199254740992 in *.
  change (2 ^ 52) with 4503599627370496 in *.
  destruct R as [|pR|pR]; try lia.
  destruct (Z.eq_dec (Z.pos pR) 9007199254740992) as [Heq|Hne].
  - assert (Hd : Z.pos (digits2_pos pR) = 54).
    { apply digits2_unique. change (2 ^ (54 - 1)) with 9007199254740992.
      change (2 ^ 54) with 18014398509481984. lia. }
    unfold shr_fexp.
    change (Zdigits2 (Z.pos pR)) with (Z.pos (digits2_pos pR)).
    rewrite Hd, fexp_small by lia.
    replace (54 + e - 53 - e) with 1 by lia.
    destruct pR as [p'|p'|]; try lia.
    exists p', (e + 1). split; [reflexivity|]. right. repeat split; lia.
  - exists pR, e. split; [|left; auto].
    rewrite shr_fexp_canonical; [reflexivity| |lia].
    apply digits2_unique. change (2 ^ (53 - 1)) with 4503599627370496.
    change (2 ^ 53) with 9007199254740992. lia.
Qed.

Lemma multiple_small (d m r : Z) : 0 < m -> 0 <= r < m -> r = d * m -> r = 0.
Proof.
  intros Hm Hr ->.
  destruct (Z_lt_le_dec d 0); [nia|].
  destruct (Z_lt_le_dec 0 d); [nia|].
  assert (d = 0) by lia. subst d. reflexivity.
Qed.

Lemma binary_round_aux_div (sx : bool) (q e' m2 r : Z) :
  2 ^ 52 <= q < 2 ^ 54 -> 0 < m2 -> 0 <= r < m2 -> -1074 <= e' <= 900 ->
  exists (M : positive) (E R j : Z),
    binary_round_aux 53 1024 sx q e' (new_location m2 r) = S754_finite sx M E /\
    (j = 0 \/ j = 1) /\
    2 ^ 52 <= R <= 2 ^ 53 /\
    Z.abs (2 * (R * (m2 * 2 ^ j) - (m2 * q + r))) <= m2 * 2 ^ j /\
    ((exists K, m2 * q + r = K * (m2 * 2 ^ j)) -> R * (m2 * 2 ^ j) = m2 * q + r) /\
    ((Z.pos M = R /\ E = e' + j) \/
     (R = 2 ^ 53 /\ Z.pos M = 2 ^ 52 /\ E = e' + j + 1)).
Proof.
  intros Hq Hm Hr He.
  pose proof (new_location_spec m2 r Hm Hr) as Hl.
  destruct q as [|pq|pq]; try (pow_literals; lia).
  destruct (Z_lt_le_dec (Z.pos pq) (2 ^ 53)) as [Hlt|Hge].
  - (* 53 digits: no bit is dropped *)
    assert (Hd : Z.pos (digits2_pos pq) = 53).
    { apply digits2_unique. change (53 - 1) with 52. lia. }
    unfold binary_round_aux.
    rewrite shr_fexp_canonical by (auto; lia).
    cbv beta iota zeta. rewrite loc_of_record, shr_m_record.
    set (R := round_nearest_even (Z.pos pq) (new_location m2 r)).
    assert (HR : 2 ^ 52 <= R <= 2 ^ 53).
    { destruct (round_nearest_even_cases (Z.pos pq) (new_location m2 r)) as [H|H];
        fold R in H; lia. }
    destruct (shr_fexp_second R e' HR ltac:(lia)) as (M & E & Hs & Hc).
    rewrite Hs. cbv beta iota zeta. cbn [shr_m].
    replace (1024 - 53) with 971 by reflexivity.
    assert (HE : (E <=? 971) = true) by (apply Z.leb_le; lia).
    rewrite HE.
    exists M, E, R, 0. split; [reflexivity|]. split; [auto|]. split; [exact HR|].
    change (2 ^ 0) with 1. rewrite !Z.mul_1_r, !Z.add_0_r.
    split; [|split; [|exact Hc]].
    + apply Z.abs_le. unfold R. revert Hl.
      destruct (new_location m2 r) as [|[ | | ]]; intros Hl;
        cbn [round_nearest_even]; try destruct (Z.even (Z.pos pq)); nia.
    + intros [K HK].
      assert (r = 0) by (apply (multiple_small (K - Z.pos pq) m2); lia).
      unfold R. revert Hl.
      destruct (new_location m2 r) as [|[ | | ]]; intros Hl;
        cbn [round_nearest_even]; lia.
  - (* 54 digits: the last bit is dropped *)
    assert (Hd : Z.pos (digits2_pos pq) = 54).
    { apply digits2_unique. change (54 - 1) with 53. lia. }
    unfold binary_round_aux. unfold shr_fexp at 1.
    change (Zdigits2 (Z.pos pq)) with (Z.pos (digits2_pos pq)).
    rewrite Hd, fexp_small by lia.
    replace (54 + e' - 53 - e') with 1 by lia.
    cbn [shr SpecFloat.iter_pos].
    cbv beta iota zeta.
    set (mrs := shr_1 (shr_record_of_loc (Z.pos pq) (new_location m2 r))).
    set (R := round_nearest_even (shr_m mrs) (loc_of_shr_record mrs)).
    assert (Hcases :
      exists h b0 : Z, Z.pos pq = 2 * h + b0 /\ (b0 = 0 \/ b0 = 1) /\
        (R = h \/ R = h + 1) /\
        Z.abs (2 * (R * (m2 * 2) - (m2 * Z.pos pq + r))) <= m2 * 2 /\
        (b0 = 0 -> r = 0 -> R = h)).
    { unfold R, mrs.
      destruct pq as [h|h|]; [| |pow_literals; lia].
      - exists (Z.pos h), 1. split; [lia|]. split; [auto|].
        revert Hl.
        destruct (new_location m2 r) as [|[ | | ]]; intros Hl;
          cbn [shr_1 shr_record_of_loc loc_of_shr_record orb shr_m shr_r shr_s
               round_nearest_even];
          rewrite ?(Pos2Z.inj_xI h);
          try destruct (Z.even (Z.pos h)); (split; [auto|]);
          (split; [apply Z.abs_le; nia|lia]).
      - exists (Z.pos h), 0. split; [lia|]. split; [auto|].
        revert Hl.
        destruct (new_location m2 r) as [|[ | | ]]; intros Hl;
          cbn [shr_1 shr_record_of_loc loc_of_shr_record orb shr_m shr_r shr_s
               round_nearest_even];
          rewrite ?(Pos2Z.inj_xO h);
          try destruct (Z.even (Z.pos h)); (split; [auto|]);
          (split; [apply Z.abs_le; nia|lia]). }
    destruct Hcases as (h & b0 & Hpq & Hb0 & HRh & Habs & Hex).
    assert (HR : 2 ^ 52 <= R <= 2 ^ 53) by (pow_literals; lia).
    destruct (shr_fexp_second R (e' + 1) HR ltac:(lia)) as (M & E & Hs & Hc).
    rewrite Hs. cbv beta iota zeta. cbn [shr_m].
    replace (1024 - 53) with 971 by reflexivity.
    assert (HE : (E <=? 971) = true) by (apply Z.leb_le; lia).
    rewrite HE.
    exists M, E, R, 1. split; [reflexivity|]. split; [auto|]. split; [exact HR|].
    change (2 ^ 1) with 2.
    split; [exact Habs|]. split; [|exact Hc].
    intros [K HK].
    assert (H0 : m2 * b0 + r = 0).
    { apply (multiple_small (K - h) (2 * m2)); [lia| |].
      - destruct Hb0; subst b0; lia.
      - rewrite Hpq in HK. lia. }
    assert (b0 = 0 /\ r = 0) as [Hb Hr0] by (destruct Hb0; subst b0; lia).
    rewrite (Hex Hb Hr0). subst b0 r. rewrite Hpq. lia.
Qed.

Lemma SFdiv_finite (sx sy : bool) (m1 m2 : positive) (k1 k2 : Z) :
  Z.pos (digits2_pos m1) = 53 -> Z.pos (digits2_pos m2) = 53 ->
  0 <= k1 <= 52 -> 0 <= k2 <= 52 ->
  exists (M : positive) (E R j : Z),
    SFdiv 53 1024 (S754_finite sx m1 (- k1)) (S754_finite sy m2 (- k2))
      = S754_finite (xorb sx sy) M E /\
    (j = 0 \/ j = 1) /\
    2 ^ 52 <= R <= 2 ^ 53 /\
    Z.abs (2 * (R * (Z.pos m2 * 2 ^ j) - Z.pos m1 * 2 ^ 53)) <= Z.pos m2 * 2 ^ j /\
    ((exists K, Z.pos m1 * 2 ^ 53 = K * (Z.pos m2 * 2 ^ j)) ->
       R * (Z.pos m2 * 2 ^ j) = Z.pos m1 * 2 ^ 53) /\
    ((Z.pos M = R /\ E = k2 - k1 - 53 + j) \/
     (R = 2 ^ 53 /\ Z.pos M = 2 ^ 52 /\ E = k2 - k1 - 53 + j + 1)).
Proof.
  intros H1 H2 Hk1 Hk2.
  pose proof (digits2_bounds m1) as B1. pose proof (digits2_bounds m2) as B2.
  rewrite H1 in B1. rewrite H2 in B2. change (53 - 1) with 52 in B1, B2.
  unfold SFdiv, SFdiv_core_binary.
  change (Zdigits2 (Z.pos m1)) with (Z.pos (digits2_pos m1)).
  change (Zdigits2 (Z.pos m2)) with (Z.pos (digits2_pos m2)).
  rewrite H1, H2.
  rewrite fexp_small by lia.
  replace (Z.min (53 + - k1 - (53 + - k2) - 53) (- k1 - - k2))
    with (k2 - k1 - 53) by lia.
  replace (- k1 - - k2 - (k2 - k1 - 53)) with 53 by lia.
  cbv beta iota zeta.
  rewrite Z.shiftl_mul_pow2 by lia.
  pose proof (Z_div_mod (Z.pos m1 * 2 ^ 53) (Z.pos m2) ltac:(lia)) as Hdm.
  destruct (Z.div_eucl (Z.pos m1 * 2 ^ 53) (Z.pos m2)) as [q r].
  destruct Hdm as [Hdm Hr].
  assert (Hq : 2 ^ 52 <= q < 2 ^ 54).
  { pow_literals. split.
    - destruct (Z_lt_le_dec q 4503599627370496); [|lia]. exfalso.
      assert (Z.pos m2 * q <= Z.pos m2 * 4503599627370495) by nia. nia.
    - destruct (Z_lt_le_dec q 18014398509481984); [lia|]. exfalso.
      assert (Z.pos m2 * 18014398509481984 <= Z.pos m2 * q) by nia. nia. }
  destruct (binary_round_aux_div (xorb sx sy) q (k2 - k1 - 53) (Z.pos m2) r
              Hq ltac:(lia) ltac:(lia) ltac:(lia))
    as (M & E & R & j & Hb & Hj & HR & Habs & Hex & Hc).
  rewrite <- Hdm in Habs, Hex.
  exists M, E, R, j. repeat split; try assumption; tauto.
Qed.

(** Comparing the rounded quotient with an integer gives the result of
    comparing the exact quotient [s / b] with it. *)
Lemma compare_scaled (Rs s b c D t : Z) :
  0 < D -> 0 < c -> 0 < t -> 0 < b ->
  t * D = b * c -> D < 2 * c ->
  Z.abs (2 * (Rs * D - s * c)) <= D ->
  ((exists K, s * c = K * D) -> Rs * D = s * c) ->
  forall k, (Rs ?= k * t) = (s ?= k * b).
Proof.
  intros HD Hc Ht Hb HtD HDc Habs Hex k.
  apply Z.abs_le in Habs.
  assert (Hkey : Rs * D - (k * t) * D = (Rs * D - s * c) + (s - k * b) * c).
  { replace ((k * t) * D) with (k * (t * D)) by ring. rewrite HtD. ring. }
  destruct (Z.compare_spec s (k * b)) as [Heq|Hlt|Hgt].
  - apply Z.compare_eq_iff.
    assert (HRD : Rs * D = s * c).
    { apply Hex. exists (k * t). rewrite Heq.
      replace (k * t * D) with (k * (t * D)) by ring. rewrite HtD. ring. }
    assert (H0 : (Rs - k * t) * D = 0).
    { replace ((Rs - k * t) * D) with (Rs * D - k * t * D) by ring.
      rewrite Hkey, HRD, Heq. ring. }
    apply Z.mul_eq_0 in H0. lia.
  - apply Z.compare_lt_iff.
    assert (Hd : (s - k * b) * c <= - c) by nia.
    assert (H0 : (Rs - k * t) * D < 0).
    { replace ((Rs - k * t) * D) with (Rs * D - k * t * D) by ring. lia. }
    nia.
  - apply Z.compare_gt_iff.
    assert (Hd : c <= (s - k * b) * c) by nia.
    assert (H0 : 0 < (Rs - k * t) * D).
    { replace ((Rs - k * t) * D) with (Rs * D - k * t * D) by ring. lia. }
    nia.
Qed.

Lemma ceil_from_compare (Rs s b t : Z) :
  0 < t -> 0 < b ->
  (forall k, (Rs ?= k * t) = (s ?= k * b)) ->
  - ((- Rs) / t) = (s + b - 1) / b.
Proof.
  intros Ht Hb Hcmp.
  set (n := (s + b - 1) / b).
  assert (Hn : b * n <= s + b - 1 < b * n + b).
  { pose proof (Z.mul_div_le (s + b - 1) b Hb).
    pose proof (Z.mul_succ_div_gt (s + b - 1) b Hb). fold n in H, H0. lia. }
  assert (Hle : Rs <= n * t).
  { unfold Z.le. rewrite Hcmp. change (s <= n * b). lia. }
  assert (Hgt : Rs > (n - 1) * t).
  { unfold Z.gt. rewrite Hcmp. change (s > (n - 1) * b). lia. }
  assert (Hq : - Rs / t = - n).
  { symmetry. apply (Z.div_unique (- Rs) t (- n) (n * t - Rs)); lia. }
  rewrite Hq. lia.
Qed.

Lemma ceil_finite_scaled (sx : bool) (M : positive) (E R E2 : Z) :
  E2 <= 0 ->
  (Z.pos M = R /\ E = E2) \/ (R = 2 ^ 53 /\ Z.pos M = 2 ^ 52 /\ E = E2 + 1) ->
  ceil_finite sx M E = - ((- signed sx R) / 2 ^ (- E2)).
Proof.
  intros HE2 Hc. unfold ceil_finite. cbv zeta.
  destruct Hc as [[HM HE]|(HR & HM & HE)].
  - subst R E. destruct (Z.leb_spec 0 E2) as [H0|H0]; [|reflexivity].
    assert (E2 = 0) by lia. subst E2. change (2 ^ 0) with 1. change (2 ^ (- 0)) with 1.
    rewrite Z.div_1_r. lia.
  - assert (HRM : signed sx R = 2 * signed sx (Z.pos M)).
    { rewrite HR, HM. destruct sx; reflexivity. }
    rewrite HRM. subst E.
    destruct (Z.leb_spec 0 (E2 + 1)) as [H0|H0].
    + assert (E2 = 0 \/ E2 = -1) as [->| ->] by lia.
      * change (2 ^ (0 + 1)) with 2. change (2 ^ (- 0)) with 1.
        rewrite Z.div_1_r. lia.
      * change (2 ^ (-1 + 1)) with 1. change (2 ^ (- -1)) with 2.
        replace (- (2 * signed sx (Z.pos M))) with ((- signed sx (Z.pos M)) * 2) by ring.
        rewrite Z.div_mul by lia. lia.
    + replace (- E2) with (1 + - (E2 + 1)) by lia.
      rewrite Z.pow_add_r by lia. change (2 ^ 1) with 2.
      replace (- (2 * signed sx (Z.pos M))) with (2 * (- signed sx (Z.pos M))) by ring.
      rewrite Z.div_mul_cancel_l; [reflexivity| |lia].
      apply Z.pow_nonzero; lia.
Qed.

(** The ceiling of the double-precision quotient of two integers below
    2^53 is the ceiling of their exact quotient. *)
Lemma ceil_SFdiv_exact (sx : bool) (ps pb m1 m2 : positive) (k1 k2 : Z) :
  0 <= k1 <= 52 -> 0 <= k2 <= 52 ->
  Z.pos m1 = Z.pos ps * 2 ^ k1 -> Z.pos (digits2_pos m1) = 53 ->
  Z.pos m2 = Z.pos pb * 2 ^ k2 -> Z.pos (digits2_pos m2) = 53 ->
  exists (M : positive) (E : Z),
    SFdiv 53 1024 (S754_finite sx m1 (- k1)) (S754_finite false m2 (- k2))
      = S754_finite sx M E /\
    ceil_finite sx M E = (signed sx (Z.pos ps) + Z.pos pb - 1) / Z.pos pb.
Proof.
  intros Hk1 Hk2 Hm1 Hd1 Hm2 Hd2.
  destruct (SFdiv_finite sx false m1 m2 k1 k2 Hd1 Hd2 Hk1 Hk2)
    as (M & E & R & j & Hdiv & Hj & HR & Habs & Hex & Hc).
  replace (xorb sx false) with sx in Hdiv by (destruct sx; reflexivity).
  exists M, E. split; [exact Hdiv|].
  pose proof (digits2_bounds m2) as B2. rewrite Hd2 in B2.
  set (E2 := k2 - k1 - 53 + j) in *.
  assert (HE2 : E2 <= 0) by (unfold E2; lia).
  rewrite (ceil_finite_scaled sx M E R E2 HE2 Hc).
  set (t := 2 ^ (- E2)).
  set (c := 2 ^ (53 + k1)).
  set (D := Z.pos m2 * 2 ^ j) in *.
  assert (Ht : 0 < t) by (apply Z.pow_pos_nonneg; lia).
  assert (Hcpos : 0 < c) by (apply Z.pow_pos_nonneg; lia).
  assert (H2j : 1 <= 2 ^ j <= 2).
  { destruct Hj as [-> | ->]; [change (2 ^ 0) with 1|change (2 ^ 1) with 2]; lia. }
  assert (HD : 0 < D) by (unfold D; nia).
  assert (Hc53 : c = 2 ^ 53 * 2 ^ k1) by (unfold c; apply Z.pow_add_r; lia).
  assert (H2k1 : 1 <= 2 ^ k1).
  { pose proof (Z.pow_pos_nonneg 2 k1 ltac:(lia) ltac:(lia)). lia. }
  assert (HDc : D < 2 * c).
  { unfold D. rewrite Hc53. pow_literals. nia. }
  assert (HN : Z.pos m1 * 2 ^ 53 = Z.pos ps * c).
  { rewrite Hm1, Hc53. ring. }
  assert (HtD : t * D = Z.pos pb * c).
  { unfold t, D, c. rewrite Hm2.
    replace (53 + k1) with (- E2 + (k2 + j)) by (unfold E2; lia).
    rewrite (Z.pow_add_r 2 (- E2) (k2 + j)) by lia.
    rewrite (Z.pow_add_r 2 k2 j) by lia. ring. }
  apply ceil_from_compare; [exact Ht|lia|].
  apply (compare_scaled _ _ _ c D); try assumption; try lia.
  - rewrite HN in Habs. apply Z.abs_le in Habs. apply Z.abs_le.
    destruct sx; unfold signed; lia.
  - intros [K HK]. rewrite HN in Hex.
    destruct sx; unfold signed in *.
    + assert (R * D = Z.pos ps * c) by (apply Hex; exists (- K); lia). lia.
    + apply Hex. exists K. exact HK.
Qed.

(** [int(math.ceil(float(s) / float(b)))] is the integer ceiling of
    [s / b] when both are below 2^53 in absolute value. *)
Lemma ceil_div_exact (s b : Z) :
  - 2 ^ 53 < s < 2 ^ 53 -> 0 < b < 2 ^ 53 ->
  Parallelization.ceil_div s b = Ok ((s + b - 1) / b).
Proof.
  intros Hs Hb.
  destruct b as [|pb|pb]; try lia.
  destruct (binary_normalize_small false pb ltac:(lia))
    as (m2 & k2 & Hfb & Hk2 & Hm2 & Hd2).
  unfold Parallelization.ceil_div, float_of_int.
  change (binary_normalize 53 1024 (Z.pos pb) 0 false)
    with (binary_round 53 1024 false pb 0).
  rewrite Hfb.
  destruct s as [|ps|ps].
  - cbn [binary_normalize bind float_truediv SFdiv math_ceil].
    f_equal. symmetry. apply Z.div_small. lia.
  - destruct (binary_normalize_small false ps ltac:(lia))
      as (m1 & k1 & Hfs & Hk1 & Hm1 & Hd1).
    change (binary_normalize 53 1024 (Z.pos ps) 0 false)
      with (binary_round 53 1024 false ps 0).
    rewrite Hfs. cbn [bind float_truediv].
    destruct (ceil_SFdiv_exact false ps pb m1 m2 k1 k2 Hk1 Hk2 Hm1 Hd1 Hm2 Hd2)
      as (M & E & Hdiv & Hceil).
    rewrite Hdiv. cbn [math_ceil]. rewrite Hceil. reflexivity.
  - destruct (binary_normalize_small true ps ltac:(lia))
      as (m1 & k1 & Hfs & Hk1 & Hm1 & Hd1).
    change (binary_normalize 53 1024 (Z.neg ps) 0 false)
      with (binary_round 53 1024 true ps 0).
    rewrite Hfs. cbn [bind float_truediv].
    destruct (ceil_SFdiv_exact true ps pb m1 m2 k1 k2 Hk1 Hk2 Hm1 Hd1 Hm2 Hd2)
      as (M & E & Hdiv & Hceil).
    rewrite Hdiv. cbn [math_ceil]. rewrite Hceil. reflexivity.
Qed.

(** The value of a mantissa shifted by [k] digits at exponent [-k]. *)
Lemma scaled_value (v k : Z) :
  0 <= k ->
  (inject_Z (v * 2 ^ k) * Qpower 2 (- k) == inject_Z v)%Q.
Proof.
  intros Hk.
  rewrite inject_Z_mult.
  rewrite Qpower_opp.
  rewrite (Zpower_Qpower 2 k Hk).
  change (inject_Z 2) with 2%Q.
  rewrite <- Qmult_assoc. rewrite Qmult_inv_r.
  - apply Qmult_1_r.
  - intros H.
    assert (Hp : (0 < 2 ^ k)%Q) by (apply Qpower_0_lt; reflexivity).
    rewrite H in Hp. discriminate.
Qed.

(** [float(z)] is exact for an integer below 2^53 in absolute value. *)
Lemma py_float_int_exact (L : Lib) (z : Z) :
  - 2 ^ 53 < z < 2 ^ 53 ->
  exists q : Q, py_float L (PInt z) = Ok q /\ (q == inject_Z z)%Q.
Proof.
  intros Hz. unfold py_float, float_of_int.
  destruct z as [|p|p].
  - exists 0%Q. split; reflexivity.
  - destruct (binary_normalize_small false p ltac:(lia))
      as (m & k & Hf & Hk & Hm & _).
    change (binary_normalize 53 1024 (Z.pos p) 0 false)
      with (binary_round 53 1024 false p 0).
    rewrite Hf. cbn [bind float_value signed]. eexists. split; [reflexivity|].
    rewrite Hm. apply scaled_value. lia.
  - destruct (binary_normalize_small true p ltac:(lia))
      as (m & k & Hf & Hk & Hm & _).
    change (binary_normalize 53 1024 (Z.neg p) 0 false)
      with (binary_round 53 1024 true p 0).
    rewrite Hf. cbn [bind float_value signed]. eexists. split; [reflexivity|].
    rewrite Hm.
    replace (- (Z.pos p * 2 ^ k)) with (Z.neg p * 2 ^ k) by lia.
    apply scaled_value. lia.
Qed.

(** From 2^53 on the conversion rounds, to the nearest double and to
    the even mantissa on a tie, and from 2^1024 - 2^970 on it raises. *)
Lemma float_of_int_rounds :
  float_of_int (2 ^ 53 + 1) = float_of_int (2 ^ 53) /\
  float_of_int (2 ^ 53 + 3) = float_of_int (2 ^ 53 + 4) /\
  float_of_int (10 ^ 17 + 1) = float_of_int (10 ^ 17) /\
  returns (float_of_int (2 ^ 1024 - 2 ^ 970 - 1)) = true /\
  float_of_int (2 ^ 1024 - 2 ^ 970) = Raise (OtherError "OverflowError") /\
  float_of_int (2 ^ 1024) = Raise (OtherError "OverflowError").
Proof.
  vm_compute. repeat split.
Qed.

End FloatFacts.

(** ** SizingModel *)

Module SizingFacts.
Import Py.
Import Parallelization.

(** The integer ceiling [(s + b - 1) / b] of [s / b]. *)
Lemma ceil_bounds (s b : Z) :
  0 < b -> ((s + b - 1) / b - 1) * b < s <= (s + b - 1) / b * b.
Proof.
  intros Hb.
  pose proof (Z.div_mod (s + b - 1) b ltac:(lia)) as H1.
  pose proof (Z.mod_pos_bound (s + b - 1) b Hb) as H2.
  nia.
Qed.

Lemma ceil_pos (s b : Z) : 0 < b -> 0 < s -> 0 < (s + b - 1) / b.
Proof.
  intros Hb Hs. pose proof (ceil_bounds s b Hb). nia.
Qed.

Lemma py_range_length (n : Z) : 0 <= n -> Z.of_nat (List.length (py_range n)) = n.
Proof.
  intros Hn. unfold py_range. rewrite length_map, length_seq. lia.
Qed.

Lemma py_range_lookup (n : Z) (i : nat) (x : Z) :
  py_range n !! i = Some x -> x = Z.of_nat i /\ Z.of_nat i < n.
Proof.
  unfold py_range. rewrite list_lookup_fmap.
  destruct (seq 0 (Z.to_nat n) !! i) as [k|] eqn:Hk; simpl; [|discriminate].
  intros [= <-]. apply lookup_seq in Hk as [-> Hlt]. split; lia.
Qed.

(** With a block size set, what [getRanges] returns is the list of the
    ranges numbered 0 .. nbBlocks-1 over the shared sizes, for the block
    count that line 417 computed. *)
Lemma getRanges_inv (p : Parallelization) (node : Node.Node)
  (rs : list Range.Range) :
  blockSize p <> 0 ->
  getRanges p node = Ok rs ->
  exists n : Z,
    ceil_div (Node.size node) (blockSize p) = Ok n /\
    rs = map (fun i => Range.MkRange i (blockSize p) (Node.size node))
           (py_range n).
Proof.
  intros Hb. unfold getRanges, getSizes.
  destruct (blockSize p =? 0) eqn:E; [apply Z.eqb_eq in E; contradiction|].
  cbn [negb]. cbv zeta.
  destruct (ceil_div (Node.size node) (blockSize p)) as [n|e]; cbn [bind unpack3].
  - intros [= <-]. exists n. split; reflexivity.
  - discriminate.
Qed.

(** Below 2^53 the block count is the integer ceiling. *)
Lemma getRanges_blockSize (p : Parallelization) (node : Node.Node) :
  0 < blockSize p < 2 ^ 53 ->
  - 2 ^ 53 < Node.size node < 2 ^ 53 ->
  getRanges p node =
    Ok (map (fun i => Range.MkRange i (blockSize p) (Node.size node))
          (py_range ((Node.size node + blockSize p - 1) / blockSize p))).
Proof.
  intros Hb Hs. unfold getRanges, getSizes.
  destruct (blockSize p =? 0) eqn:E; [apply Z.eqb_eq in E; lia|].
  cbn [negb]. cbv zeta.
  rewrite (FloatFacts.ceil_div_exact _ _ Hs Hb). reflexivity.
Qed.

Lemma ranges_lookup (b s n : Z) (i : nat) (r : Range.Range) :
  map (fun i => Range.MkRange i b s) (py_range n) !! i = Some r ->
  r = Range.MkRange (Z.of_nat i) b s /\ Z.of_nat i < n.
Proof.
  rewrite list_lookup_fmap.
  destruct (py_range n !! i) as [x|] eqn:Hx; simpl; [|discriminate].
  intros [= <-]. apply py_range_lookup in Hx as [-> Hlt]. auto.
Qed.

Lemma ranges_lookup_lt (b s n : Z) (i : nat) :
  Z.of_nat i < n ->
  map (fun i => Range.MkRange i b s) (py_range n) !! i
  = Some (Range.MkRange (Z.of_nat i) b s).
Proof.
  intros Hlt. rewrite list_lookup_fmap. unfold py_range.
  rewrite list_lookup_fmap.
  rewrite (lookup_seq_lt 0 (Z.to_nat n) i) by lia. reflexivity.
Qed.

(** A range that is not the last one has the full block size. *)
Lemma effectiveBlockSize_inner (i b s : Z) :
  0 < b -> (i + 1) * b < s ->
  Range.effectiveBlockSize (Range.MkRange i b s) = b.
Proof.
  intros Hb Hlt. unfold Range.effectiveBlockSize, Range.start. simpl.
  destruct (s - i * b + 1 >=? b) eqn:E; [reflexivity|]. lia.
Qed.

(** No range is longer than the block size. *)
Lemma effectiveBlockSize_le (i b s : Z) :
  Range.effectiveBlockSize (Range.MkRange i b s) <= b.
Proof.
  unfold Range.effectiveBlockSize, Range.start. simpl.
  destruct (s - i * b + 1 >=? b) eqn:E; lia.
Qed.

(** The last range ends at [s] when [b] divides [s] and at [s + 1]
    otherwise. *)
Lemma end_last (b s : Z) :
  0 < b -> 0 < s ->
  Range.end_ (Range.MkRange ((s + b - 1) / b - 1) b s)
  = if s mod b =? 0 then s else s + 1.
Proof.
  intros Hb Hs.
  pose proof (ceil_bounds s b Hb) as Hn.
  set (n := (s + b - 1) / b) in *. clearbody n.
  unfold Range.end_, Range.effectiveBlockSize, Range.start. simpl.
  destruct (s mod b =? 0) eqn:Em.
  - apply Z.eqb_eq in Em.
    pose proof (Z.div_mod s b ltac:(lia)) as Hd. rewrite Em in Hd.
    assert (n = s / b) by nia.
    destruct (s - (n - 1) * b + 1 >=? b) eqn:E; nia.
  - apply Z.eqb_neq in Em.
    assert (s <> n * b).
    { intros Heq. apply Em. rewrite Heq. apply Z.mod_mul. lia. }
    destruct (s - (n - 1) * b + 1 >=? b) eqn:E; lia.
Qed.

(** X2: two different ranges of one node share no index. *)
Lemma getRanges_disjoint (p : Parallelization) (node : Node.Node)
  (rs : list Range.Range) (i j : nat) (ri rj : Range.Range) (x : Z) :
  0 < blockSize p -> 0 < Node.size node ->
  getRanges p node = Ok rs ->
  rs !! i = Some ri -> rs !! j = Some rj -> i <> j ->
  Range.covers ri x = true -> Range.covers rj x = false.
Proof.
  intros Hb Hs Hrs Hi Hj Hne Hc.
  destruct (getRanges_inv p node rs ltac:(lia) Hrs) as (n & _ & ->).
  apply ranges_lookup in Hi as [-> Hin], Hj as [-> Hjn].
  set (b := blockSize p) in *. set (s := Node.size node) in *.
  pose proof (effectiveBlockSize_le (Z.of_nat i) b s) as Hei.
  pose proof (effectiveBlockSize_le (Z.of_nat j) b s) as Hej.
  unfold Range.covers in *. apply andb_true_iff in Hc as [Hc1 Hc2].
  apply Z.leb_le in Hc1. apply Z.ltb_lt in Hc2.
  apply andb_false_iff.
  unfold Range.end_ in *.
  assert (Hsi : Range.start (Range.MkRange (Z.of_nat i) b s) = Z.of_nat i * b)
    by reflexivity.
  assert (Hsj : Range.start (Range.MkRange (Z.of_nat j) b s) = Z.of_nat j * b)
    by reflexivity.
  rewrite Hsi in Hc1, Hc2. rewrite Hsj.
  destruct (Nat.lt_total i j) as [Hlt|[Heq|Hgt]]; [|contradiction|].
  - (* i < j: the range i ends at or before (i+1)*b, where j starts at the earliest *)
    left. apply Z.leb_gt.
    assert (Z.of_nat i + 1 <= Z.of_nat j) by lia. nia.
  - (* j < i: the range j ends at or before (j+1)*b *)
    right. apply Z.ltb_ge.
    assert (Z.of_nat j + 1 <= Z.of_nat i) by lia. nia.
Qed.

(** Below 2^53, no index below the logical size is missed. *)
Lemma getRanges_cover_below (p : Parallelization) (node : Node.Node)
  (rs : list Range.Range) (x : Z) :
  0 < blockSize p < 2 ^ 53 -> 0 < Node.size node < 2 ^ 53 ->
  getRanges p node = Ok rs ->
  0 <= x < Node.size node ->
  exists (i : nat) (r : Range.Range), rs !! i = Some r /\ Range.covers r x = true.
Proof.
  intros Hb Hs Hrs Hx.
  rewrite getRanges_blockSize in Hrs by lia. injection Hrs as <-.
  destruct Hb as [Hb _].
  pose proof (ceil_bounds (Node.size node) (blockSize p) Hb) as Hn.
  set (n := (Node.size node + blockSize p - 1) / blockSize p) in *. clearbody n.
  set (b := blockSize p) in *. set (s := Node.size node) in *.
  pose proof (Z.div_mod x b ltac:(lia)) as Hd.
  pose proof (Z.mod_pos_bound x b Hb) as Hm.
  assert (Hq : 0 <= x / b) by (apply Z.div_pos; lia).
  assert (Hqn : x / b < n) by nia.
  exists (Z.to_nat (x / b)), (Range.MkRange (x / b) b s). split.
  - rewrite ranges_lookup_lt by lia. rewrite Z2Nat.id by lia. reflexivity.
  - unfold Range.covers, Range.end_, Range.effectiveBlockSize, Range.start. simpl.
    apply andb_true_iff. split; [apply Z.leb_le; lia|]. apply Z.ltb_lt.
    destruct (s - x / b * b + 1 >=? b) eqn:E; lia.
Qed.

(** C3: with blockSize b and logical size s, both positive and below
    2^53, [getRanges] returns ceil(s/b) ranges; the range at position i
    has iteration i and start i*b, carries the shared pair (b, s), and
    has effective block size b unless it is the last one. *)
Theorem getRanges_shape (p : Parallelization) (node : Node.Node) (b s : Z) :
  blockSize p = b -> Node.size node = s ->
  0 < b < 2 ^ 53 -> 0 < s < 2 ^ 53 ->
  exists rs : list Range.Range,
    getRanges p node = Ok rs /\
    Z.of_nat (List.length rs) = (s + b - 1) / b /\
    (Z.of_nat (List.length rs) - 1) * b < s <= Z.of_nat (List.length rs) * b /\
    forall (i : nat) (r : Range.Range), rs !! i = Some r ->
      Range.iteration r = Z.of_nat i /\
      Range.start r = Z.of_nat i * b /\
      Range.blockSize r = b /\
      Range.fullSize r = s /\
      ((S i < List.length rs)%nat -> Range.effectiveBlockSize r = b).
Proof.
  intros <- <- Hb Hs.
  assert (Hb0 : 0 < blockSize p) by lia.
  assert (Hs0 : 0 < Node.size node) by lia.
  pose proof (ceil_bounds (Node.size node) (blockSize p) Hb0) as Hn.
  pose proof (ceil_pos _ _ Hb0 Hs0) as Hpos.
  eexists. split; [apply getRanges_blockSize; lia|].
  rewrite length_map. rewrite py_range_length by (apply Z.lt_le_incl, Hpos).
  split; [reflexivity|].
  split; [exact Hn|].
  intros i r Hr. apply ranges_lookup in Hr as [-> Hlt].
  unfold Range.start. simpl. repeat split.
  intros Hi. apply effectiveBlockSize_inner; [assumption|].
  pose proof (py_range_length _ (Z.lt_le_incl _ _ Hpos)) as Hlen.
  assert (Z.of_nat i + 2 <= (Node.size node + blockSize p - 1) / blockSize p)
    by lia.
  nia.
Qed.

Lemma getRanges_shape_witness :
  exists rs : list Range.Range,
    getRanges (MkParallelization 0 2) (Node.MkNode 5 ∅) = Ok rs /\
    Z.of_nat (List.length rs) = (5 + 2 - 1) / 2 /\
    (Z.of_nat (List.length rs) - 1) * 2 < 5 <= Z.of_nat (List.length rs) * 2 /\
    forall (i : nat) (r : Range.Range), rs !! i = Some r ->
      Range.iteration r = Z.of_nat i /\
      Range.start r = Z.of_nat i * 2 /\
      Range.blockSize r = 2 /\
      Range.fullSize r = 5 /\
      ((S i < List.length rs)%nat -> Range.effectiveBlockSize r = 2).
Proof.
  apply (getRanges_shape (MkParallelization 0 2) (Node.MkNode 5 ∅) 2 5);
    [reflexivity | reflexivity | split; reflexivity | split; reflexivity].
Defined.

(** From 2^53 on the double-precision quotient loses the remainder: for
    logical size 10^17 + 1 and block size 10^17 the quotient is rounded to
    1.0, so that [getRanges] returns one range where ceil(s/b) is 2, and
    the index 10^17, below the logical size, is in no range. *)
Lemma getRanges_rounded_count :
  let b := 10 ^ 17 in
  let s := 10 ^ 17 + 1 in
  let rs := [Range.MkRange 0 b s] in
  (0 < b /\ 0 < s) /\
  getRanges (MkParallelization 0 b) (Node.MkNode s ∅) = Ok rs /\
  Z.of_nat (List.length rs) = 1 /\
  (s + b - 1) / b = 2 /\
  existsb (fun r => Range.covers r (10 ^ 17)) rs = false.
Proof.
  vm_compute. repeat split.
Qed.

(** In the other direction the quotient can be rounded up: the block
    size 2^53 + 1 divides the logical size 3 * (2^53 + 1), and four ranges
    are returned where ceil(s/b) is 3. *)
Lemma getRanges_rounded_up :
  let b := 2 ^ 53 + 1 in
  let s := 3 * (2 ^ 53 + 1) in
  getRanges (MkParallelization 0 b) (Node.MkNode s ∅)
  = Ok (map (fun i => Range.MkRange i b s) [0; 1; 2; 3]) /\
  (s + b - 1) / b = 3 /\ s mod b = 0.
Proof.
  vm_compute. repeat split.
Qed.

(** C1: for logical size 5 and block size 2 the three ranges are
    [0,2), [2,4) and [4,6): the last one covers index 5, which is not
    below the logical size. *)
Theorem getRanges_overrun :
  let node := Node.MkNode 5 ∅ in
  let rs := [Range.MkRange 0 2 5; Range.MkRange 1 2 5; Range.MkRange 2 2 5] in
  getRanges (MkParallelization 0 2) node = Ok rs /\
  map Range.start rs = [0; 2; 4] /\
  map Range.end_ rs = [2; 4; 6] /\
  Node.size node <= 5 /\
  existsb (fun r => Range.covers r 5) rs = true.
Proof.
  vm_compute. repeat split; discriminate.
Qed.

(** The overrun is general: whenever the block size does not divide the
    logical size (both below 2^53), the last range ends one past it. *)
Lemma getRanges_last_overrun (p : Parallelization) (node : Node.Node)
  (rs : list Range.Range) :
  0 < blockSize p < 2 ^ 53 -> 0 < Node.size node < 2 ^ 53 ->
  Node.size node mod blockSize p <> 0 ->
  getRanges p node = Ok rs ->
  exists r : Range.Range,
    rs !! (List.length rs - 1)%nat = Some r /\
    Range.covers r (Node.size node) = true.
Proof.
  intros Hb Hs Hm Hrs.
  rewrite getRanges_blockSize in Hrs by lia. injection Hrs as <-.
  assert (Hb0 : 0 < blockSize p) by lia.
  assert (Hs0 : 0 < Node.size node) by lia.
  pose proof (ceil_bounds (Node.size node) (blockSize p) Hb0) as Hn.
  pose proof (ceil_pos _ _ Hb0 Hs0) as Hpos.
  pose proof (end_last (blockSize p) (Node.size node) Hb0 Hs0) as He.
  apply Z.eqb_neq in Hm. rewrite Hm in He.
  set (n := (Node.size node + blockSize p - 1) / blockSize p) in *.
  set (b := blockSize p) in *. set (s := Node.size node) in *.
  exists (Range.MkRange (n - 1) b s). split.
  - rewrite length_map.
    pose proof (py_range_length n ltac:(lia)) as Hlen.
    replace (List.length (py_range n) - 1)%nat with (Z.to_nat (n - 1)) by lia.
    rewrite ranges_lookup_lt by lia. rewrite Z2Nat.id by lia. reflexivity.
  - unfold Range.covers. rewrite He. unfold Range.start. simpl.
    apply andb_true_iff. split; [apply Z.leb_le; nia | apply Z.ltb_lt; lia].
Qed.

(** C10: with neither a block size nor a static block count,
    [getSizes] returns [None], so that [getRanges] and [getRange] fail on
    unpacking it instead of returning ranges. *)
Theorem getSizes_not_parallelized (node : Node.Node) :
  getSizes (MkParallelization 0 0) node = Ok None /\
  getRanges (MkParallelization 0 0) node = Raise TypeError /\
  forall iteration : Z,
    getRange (MkParallelization 0 0) node iteration = Raise TypeError.
Proof.
  repeat split.
Qed.

End SizingFacts.

(** ** Node sizes *)

Module NodeSizeFacts.
Import Py.
Import Samples.

(** The running sum is threaded through the loop. *)
Lemma computeSize_loop_acc (params : list string) (g : Node.Graph)
  (node : Node.Node) (size : Z) :
  MultiDynamicNodeSize.computeSize_loop params g node size
  = bind (MultiDynamicNodeSize.computeSize_loop params g node 0)
      (fun n => Ok (size + n)).
Proof.
  revert size. induction params as [|nm rest IH]; intros size; simpl.
  - f_equal. lia.
  - destruct (Node.attribute node nm) as [param|e]; simpl; [|reflexivity].
    destruct (Node.isLink param).
    + destruct (Node.getLinkParam_node g param) as [up|e]; simpl; [|reflexivity].
      rewrite (IH (size + Node.size up)), (IH (0 + Node.size up)).
      destruct (MultiDynamicNodeSize.computeSize_loop rest g node 0); simpl;
        [f_equal; lia | reflexivity].
    + destruct (Desc.is_ListAttribute (Node.desc param)).
      * destruct (Node.len param) as [n|e]; simpl; [|reflexivity].
        rewrite (IH (size + n)), (IH (0 + n)).
        destruct (MultiDynamicNodeSize.computeSize_loop rest g node 0); simpl;
          [f_equal; lia | reflexivity].
      * rewrite (IH (size + 1)), (IH (0 + 1)).
        destruct (MultiDynamicNodeSize.computeSize_loop rest g node 0); simpl;
          [f_equal; lia | reflexivity].
Qed.

(** X7: on a single name the two strategies agree as long as the attribute
    is a link or its descriptor is not an [IntParam]. *)
Lemma computeSize_single_agree (nm : string) (g : Node.Graph)
  (node : Node.Node) (param : Node.Attribute) :
  Node.attribute node nm = Ok param ->
  (Node.isLink param || negb (Desc.is_IntParam (Node.desc param)))%bool = true ->
  DynamicNodeSize.computeSize nm g node
  = bind (MultiDynamicNodeSize.computeSize [nm] g node) (fun z => Ok (PInt z)).
Proof.
  intros Ha Hk.
  unfold DynamicNodeSize.computeSize, MultiDynamicNodeSize.computeSize. simpl.
  rewrite Ha. simpl.
  destruct (Node.isLink param); simpl in *.
  - destruct (Node.getLinkParam_node g param); reflexivity.
  - destruct (Desc.is_ListAttribute (Node.desc param)).
    + destruct (Node.len param); reflexivity.
    + apply negb_true_iff in Hk. rewrite Hk. reflexivity.
Qed.

(** On an unlinked [IntParam] they differ: one returns the value, the
    other counts 1. *)
Lemma computeSize_single_int (nm : string) (g : Node.Graph)
  (node : Node.Node) (param : Node.Attribute) :
  Node.attribute node nm = Ok param ->
  Node.isLink param = false ->
  Desc.is_IntParam (Node.desc param) = true ->
  DynamicNodeSize.computeSize nm g node = Ok (Node.value param) /\
  MultiDynamicNodeSize.computeSize [nm] g node = Ok 1.
Proof.
  intros Ha Hl Hi.
  unfold DynamicNodeSize.computeSize, MultiDynamicNodeSize.computeSize. simpl.
  rewrite Ha. simpl. rewrite Hl.
  destruct (Node.desc param); try discriminate. simpl. auto.
Qed.

(** C2: on a node whose attribute "n" is an unlinked [IntParam] of
    value 5, [DynamicNodeSize("n")] computes 5 while
    [MultiDynamicNodeSize(["n"])] computes 1: the sum does not use the
    Int-valued resolution. *)
Theorem MultiDynamicNodeSize_ignores_int :
  DynamicNodeSize.computeSize "n" ∅ int_node = Ok (PInt 5) /\
  MultiDynamicNodeSize.computeSize ["n"%string] ∅ int_node = Ok 1.
Proof.
  split; vm_compute; reflexivity.
Qed.

End NodeSizeFacts.

(** ** AttributeSchema *)

Module DescFacts.
Import Py.
Import Desc.
Import Reading.
Import Samples.

Lemma append_assoc (a b c : string) : (a +:+ b) +:+ c = a +:+ (b +:+ c).
Proof.
  induction a as [|x a IH]; [reflexivity|].
  change (String x ((a +:+ b) +:+ c) = String x (a +:+ (b +:+ c))).
  f_equal. exact IH.
Qed.

(** *** checkValueTypes *)

Lemma checkValueTypes_Group (gd : list Attribute) (b : AttrBase) (j : string) :
  checkValueTypes (GroupAttribute gd b j)
  = bind (collectInvalid gd) (fun invalidParams =>
      if negb (Nat.eqb (List.length invalidParams) 0)
      then Ok (joinInvalid (name b) invalidParams)
      else Ok EmptyString).
Proof.
  reflexivity.
Qed.

(** The join of the code is one entry [group:r] per report. *)
Lemma joinInvalid_concat (n r : string) (rs : list string) :
  joinInvalid n (r :: rs)
  = String.concat ", " (map (fun r => n +:+ ":" +:+ r) (r :: rs)).
Proof.
  unfold joinInvalid. revert r.
  induction rs as [|r' rs IH]; intros r; [reflexivity|].
  change (String.concat (", " +:+ n +:+ ":") (r :: r' :: rs))
    with (r +:+ (", " +:+ n +:+ ":") +:+ String.concat (", " +:+ n +:+ ":") (r' :: rs)).
  change (String.concat ", " (map (fun r0 => n +:+ ":" +:+ r0) (r :: r' :: rs)))
    with ((n +:+ ":" +:+ r) +:+ ", "
          +:+ String.concat ", " (map (fun r0 => n +:+ ":" +:+ r0) (r' :: rs))).
  rewrite <- IH.
  rewrite !append_assoc. reflexivity.
Qed.

Lemma joinInvalid_nonempty (n : string) (rs : list string) :
  nonempty (joinInvalid n rs) = true.
Proof.
  unfold joinInvalid, nonempty. destruct n; reflexivity.
Qed.

Lemma collectInvalid_reading (gd : list Attribute) :
  Forall (fun d => color_free d = true ->
                   checkValueTypes d = Ok (checkValueTypes_reading d)) gd ->
  forallb color_free gd = true ->
  collectInvalid gd
  = Ok (List.filter nonempty (map checkValueTypes_reading gd)).
Proof.
  induction 1 as [|a gd Ha _ IH]; intros Hc; simpl in *; [reflexivity|].
  apply andb_true_iff in Hc as [Hca Hcg].
  rewrite (Ha Hca), (IH Hcg). simpl. unfold appendIfName, nonempty.
  destruct (negb (checkValueTypes_reading a =? EmptyString)%string); reflexivity.
Qed.

Lemma checkValueTypes_color_free (d : Attribute) :
  color_free d = true -> checkValueTypes d = Ok (checkValueTypes_reading d).
Proof.
  induction d using Attribute_nested_ind; intros Hc; simpl in Hc.
  - simpl. auto.
  - rewrite checkValueTypes_Group, (collectInvalid_reading gd) by assumption.
    simpl checkValueTypes_reading.
    destruct (List.filter nonempty (map checkValueTypes_reading gd)) as [|r rs];
      [reflexivity|].
    simpl bind. rewrite joinInvalid_concat. reflexivity.
  - simpl. destruct (isinstance_str (value b)), (callable (value b)); reflexivity.
  - simpl. destruct (isinstance_bool (value b)); reflexivity.
  - simpl. destruct (isinstance_int (value b)), r as [|x r]; try reflexivity.
    simpl. destruct (isinstance_int x && forallb isinstance_int r)%bool; reflexivity.
  - simpl. destruct (isinstance_float (value b)), r as [|x r]; try reflexivity.
    simpl. destruct (isinstance_float x && forallb isinstance_float r)%bool; reflexivity.
  - reflexivity.
  - simpl. destruct (isinstance_str (value b)); reflexivity.
  - discriminate.
Qed.

(** On the descriptors that keep the paths apart, the string of the
    code is the list of paths of the specification, joined by a comma and
    a space, and no path is empty. *)
Lemma reading_invalid_paths (d : Attribute) :
  single_paths d = true ->
  checkValueTypes_reading d = String.concat ", " (invalid_paths d) /\
  forallb nonempty (invalid_paths d) = true.
Proof.
  induction d using Attribute_nested_ind; intros Hs; simpl in Hs.
  - simpl. auto.
  - cbn [checkValueTypes_reading invalid_paths].
    assert (Hgd : List.filter nonempty (map checkValueTypes_reading gd)
                  = flat_map invalid_paths gd /\
                  forallb nonempty (flat_map invalid_paths gd) = true).
    { induction H as [|a gd Ha _ IH]; [split; reflexivity|].
      simpl in Hs. apply andb_true_iff in Hs as [Hsa Hsg].
      apply andb_true_iff in Hsa as [Hsa Hlen].
      destruct (Ha Hsa) as [Hra Hna]. destruct (IH Hsg) as [Hrg Hng].
      cbn [map List.filter flat_map]. rewrite Hra, Hrg.
      destruct (invalid_paths a) as [|p [|q ps]]; [| |discriminate].
      + split; [reflexivity|exact Hng].
      + simpl in Hna. apply andb_true_iff in Hna as [Hp _].
        cbn [String.concat]. rewrite Hp. split; [reflexivity|].
        simpl. rewrite Hp. exact Hng. }
    destruct Hgd as [-> Hne]. split; [reflexivity|].
    clear -Hne. induction (flat_map invalid_paths gd) as [|p ps IH];
      [reflexivity|].
    simpl in Hne. apply andb_true_iff in Hne as [_ Hps].
    cbn [map forallb]. rewrite (IH Hps), andb_true_r.
    unfold nonempty. destruct (name b); reflexivity.
  - simpl. destruct (isinstance_str (value b) || callable (value b))%bool;
      simpl; rewrite ?Hs; auto.
  - simpl. destruct (isinstance_bool (value b)); simpl; rewrite ?Hs; auto.
  - simpl. destruct (isinstance_int (value b) && forallb isinstance_int r)%bool;
      simpl; rewrite ?Hs; auto.
  - simpl. destruct (isinstance_float (value b) && forallb isinstance_float r)%bool;
      simpl; rewrite ?Hs; auto.
  - split; reflexivity.
  - simpl. destruct (isinstance_str (value b)); simpl; rewrite ?Hs; auto.
  - simpl. destruct (isinstance_str (value b)); simpl; rewrite ?Hs; auto.
Qed.

(** C5, as amended: on a descriptor without [ColorParam], in which
    every scalar has a name and no child of a group holds more than one
    invalid descendant, [checkValueTypes] returns, without raising, one
    colon-joined path per invalid descendant, joined by a comma and a
    space, and the empty string when there is none.  The invalid
    descendants are the Bool, Int, Float, String and File attributes whose
    default (or an element of the range) fails the type test of the kind;
    a Choice is never one, and a List stands for its element descriptor.
    So an IntParam with a string default reports its name, and a group
    reports [group:child] and [group:nested:grandchild]. *)
Theorem checkValueTypes_amended :
  (forall d : Attribute,
     color_free d = true -> single_paths d = true ->
     checkValueTypes d = Ok (String.concat ", " (invalid_paths d))) /\
  checkValueTypes (mkInt "count" (PStr "five") []) = Ok "count"%string /\
  checkValueTypes (mkGroup [mkInt "child" (PStr "five") []] "group")
  = Ok "group:child"%string /\
  checkValueTypes group_nested
  = Ok "group:child, group:nested:grandchild"%string /\
  checkValueTypes (mkGroup [mkInt "a" (PInt 1) [PInt 0; PInt 9]; mkBool "b" (PBool false)] "group")
  = Ok EmptyString.
Proof.
  split.
  - intros d Hc Hs. rewrite (checkValueTypes_color_free d Hc).
    f_equal. apply reading_invalid_paths. exact Hs.
  - repeat split; reflexivity.
Qed.

Lemma checkValueTypes_amended_witness :
  (color_free group_nested = true /\ single_paths group_nested = true) /\
  invalid_paths group_nested
  = ["group:child"; "group:nested:grandchild"]%string /\
  checkValueTypes group_nested
  = Ok (String.concat ", " (invalid_paths group_nested)).
Proof.
  split; [split; reflexivity|]. split; [reflexivity|].
  apply (proj1 checkValueTypes_amended group_nested); reflexivity.
Defined.

(** Where a child of a group holds two invalid descendants the code
    puts the name of the group in front of the first path only: the
    nested group reports [nested:x, nested:y] as one string, and the outer
    group prefixes that string once. *)
Lemma checkValueTypes_nested_prefix_lost :
  checkValueTypes group_nested_two = Ok "group:nested:x, nested:y"%string /\
  invalid_paths group_nested_two = ["group:nested:x"; "group:nested:y"]%string /\
  color_free group_nested_two = true /\
  single_paths group_nested_two = false.
Proof.
  repeat split.
Qed.

(** C5 as stated fails: a ChoiceParam over integers whose default is a
    string reports nothing, and a ListAttribute reports the name of its
    element descriptor, not its own and not the empty string. *)
Lemma checkValueTypes_not_own_name :
  checkValueTypes (mkChoice "c" (PStr "x") [PInt 1; PInt 2] true) = Ok EmptyString /\
  isinstance_int (PStr "x") = false /\
  checkValueTypes (mkList (mkInt "e" (PStr "x") []) "l") = Ok "e"%string /\
  attr_name (mkList (mkInt "e" (PStr "x") []) "l") = "l"%string.
Proof.
  repeat split.
Qed.

(** A descriptor that holds a [ColorParam] makes [checkValueTypes]
    raise; the colour of the internal inputs of every node is one. *)
Lemma checkValueTypes_ColorParam_raises :
  checkValueTypes (mkColor "color" (PStr EmptyString)) = Raise NotImplementedError /\
  checkValueTypes (mkGroup [mkColor "color" (PStr EmptyString)] "g")
  = Raise NotImplementedError.
Proof.
  split; reflexivity.
Qed.

(** *** BoolParam.validateValue *)

(** C8, as amended: a string is accepted exactly when, in lower case,
    it is one of the tokens y, yes, t, true, on, 1 (giving True) or n, no,
    f, false, off, 0 (giving False), and any other string raises
    ValueError; every value that is not a string is accepted and mapped to
    its truth value.  "yes" gives True and "maybe" is rejected. *)
Theorem BoolParam_validateValue_amended :
  (forall s : string,
     BoolParam_validateValue (PStr s)
     = if str_in (lower s) ["y"; "yes"; "t"; "true"; "on"; "1"]%string
       then Ok (PBool true)
       else if str_in (lower s) ["n"; "no"; "f"; "false"; "off"; "0"]%string
       then Ok (PBool false)
       else Raise ValueError) /\
  (forall v : Py.value,
     isinstance_str v = false ->
     BoolParam_validateValue v = Ok (PBool (truthy v))) /\
  (forall b : bool, BoolParam_validateValue (PBool b) = Ok (PBool b)) /\
  BoolParam_validateValue (PStr "yes") = Ok (PBool true) /\
  BoolParam_validateValue (PStr "maybe") = Raise ValueError.
Proof.
  split; [|split; [|split; [|split]]].
  - intros s. unfold BoolParam_validateValue, strtobool.
    destruct (str_in (lower s) _); [reflexivity|].
    destruct (str_in (lower s) _); reflexivity.
  - intros v Hv. destruct v; try reflexivity. discriminate.
  - reflexivity.
  - reflexivity.
  - reflexivity.
Qed.

(** C8 as stated fails: the integer 5 and [None], neither a boolean
    nor a string, are accepted. *)
Lemma BoolParam_accepts_non_bool :
  BoolParam_validateValue (PInt 5) = Ok (PBool true) /\
  BoolParam_validateValue PNone = Ok (PBool false) /\
  isinstance_bool (PInt 5) = false /\ isinstance_str (PInt 5) = false.
Proof.
  repeat split.
Qed.

Lemma BoolParam_validateValue_amended_witness :
  isinstance_str (PInt 5) = false /\
  BoolParam_validateValue (PInt 5) = Ok (PBool (truthy (PInt 5))).
Proof.
  split; [reflexivity|].
  apply (proj1 (proj2 BoolParam_validateValue_amended) (PInt 5)). reflexivity.
Defined.

(** *** matchDescription *)

Section MatchFacts.
Context (L : Py.Lib).

(** The inner loop of the group case looks the key up in [attrMap]. *)
Lemma look_attrMap (strict : bool) (k v' : Py.value) (ds : list Attribute)
  (acc : result bool) (accd : option Attribute) :
  acc = match accd with
        | Some a => matchDescription L a v' strict
        | None => Ok false
        end ->
  (fix look (ds : list Attribute) (acc : result bool) : result bool :=
     match ds with
     | [] => acc
     | a :: ds' =>
         look ds'
           (if key_is k (attr_name a)
            then matchDescription L a v' strict
            else acc)
     end) ds acc
  = match attrMap_get ds k accd with
    | Some a => matchDescription L a v' strict
    | None => Ok false
    end.
Proof.
  revert acc accd. induction ds as [|a ds IH]; intros acc accd Hacc; simpl.
  - exact Hacc.
  - apply IH. destruct (key_is k (attr_name a)); [reflexivity | exact Hacc].
Qed.

(** [GroupAttribute.matchDescription], with its loops named. *)
Lemma matchDescription_Group (gd : list Attribute) (b : AttrBase) (j : string)
  (v : Py.value) (strict : bool) :
  matchDescription L (GroupAttribute gd b j) v strict
  = bind (Attribute_matchDescription L (GroupAttribute gd b j) v) (fun ok =>
      if negb ok then Ok false
      else
        match v with
        | PDict items =>
            bind (countMatches L gd strict items) (fun matchCount =>
              if strict then
                Ok ((matchCount =? Z.of_nat (List.length items))
                    && (Z.of_nat (List.length items)
                        =? Z.of_nat (List.length gd)))%bool
              else Ok (0 <? matchCount))
        | _ => Raise AttributeError
        end).
Proof.
  simpl. destruct (Attribute_matchDescription L (GroupAttribute gd b j) v) as [ok|e];
    [|reflexivity].
  simpl. destruct (negb ok); [reflexivity|].
  destruct v; try reflexivity.
  f_equal. induction items as [|[k v'] items IH]; simpl; [reflexivity|].
  rewrite IH. unfold childMatches.
  rewrite (look_attrMap strict k v' gd (Ok false) None eq_refl). reflexivity.
Qed.

(** C4: a group with two children accepts the positional value
    [1, 2] in [validateValue], and [matchDescription] then raises
    AttributeError on [value.items()], in strict and in non-strict mode,
    instead of returning a boolean. *)
Theorem matchDescription_group_list_raises :
  validateValue L group_ab (PList [PInt 1; PInt 2]) = Ok (PList [PInt 1; PInt 2]) /\
  matchDescription L group_ab (PList [PInt 1; PInt 2]) true = Raise AttributeError /\
  matchDescription L group_ab (PList [PInt 1; PInt 2]) false = Raise AttributeError.
Proof.
  repeat split.
Qed.

(** A choice over integers lets the TypeError of [int(None)] through. *)
Lemma matchDescription_choice_None_raises (strict : bool) :
  matchDescription L (mkChoice "c" (PInt 1) [PInt 1; PInt 2] true) PNone strict
  = Raise TypeError.
Proof.
  reflexivity.
Qed.

(** A list lets through whatever [ast.literal_eval] raises besides
    ValueError, such as SyntaxError on a malformed text. *)
Lemma matchDescription_list_SyntaxError (e : Attribute) (s : string) (strict : bool) :
  literal_eval L s = Raise SyntaxError ->
  matchDescription L (mkList e "l") (PStr s) strict = Raise SyntaxError.
Proof.
  intros Hs. simpl. unfold Attribute_matchDescription. simpl.
  unfold ListAttribute_validateValue. simpl. rewrite Hs. reflexivity.
Qed.

Lemma except_all_ValueError_match {A} (body : result A) :
  match except_all_ValueError body with
  | Ok _ => Ok true
  | Raise e => if is_ValueError e then Ok false else Raise e
  end = Ok (returns body).
Proof.
  destruct body; reflexivity.
Qed.

(** The scalar kinds File, Bool, Int, Float, String and Color always
    answer with a boolean: whether [validateValue] returns. *)
Lemma matchDescription_plain_returns (d : Attribute) (v : Py.value) (strict : bool) :
  is_plain d = true ->
  matchDescription L d v strict = Ok (returns (validateValue L d v)).
Proof.
  destruct d; try discriminate; intros _; simpl;
    unfold Attribute_matchDescription; simpl.
  - destruct v; try reflexivity. simpl.
    destruct (negb (s =? EmptyString)%string); reflexivity.
  - unfold BoolParam_validateValue. rewrite except_all_ValueError_match.
    destruct (except_all_ValueError _) eqn:E; simpl;
      destruct v; simpl in *; try discriminate; try reflexivity;
      destruct (strtobool s); simpl in *; congruence.
  - unfold IntParam_validateValue. rewrite except_all_ValueError_match.
    destruct (py_int L v); reflexivity.
  - unfold FloatParam_validateValue. rewrite except_all_ValueError_match.
    destruct (py_float L v); reflexivity.
  - unfold StringParam_validateValue. destruct (isinstance_str v); reflexivity.
  - destruct v; try reflexivity. simpl.
    destruct (Nat.ltb 1 (List.length (split " " s))); reflexivity.
Qed.

(** C9: for a group whose children are named a and b, and values
    that the children match, the dict {a: va, b: vb} matches in strict
    mode, and the dict {a: va} does not match in strict mode but matches
    in non-strict mode. *)
Theorem GroupAttribute_matchDescription_ab (da db : Attribute)
  (va vb : Py.value) (b : AttrBase) (j : string) :
  attr_name da = "a"%string ->
  attr_name db = "b"%string ->
  matchDescription L da va true = Ok true ->
  matchDescription L db vb true = Ok true ->
  matchDescription L da va false = Ok true ->
  let g := GroupAttribute [da; db] b j in
  matchDescription L g (PDict [(PStr "a", va); (PStr "b", vb)]) true = Ok true /\
  matchDescription L g (PDict [(PStr "a", va)]) true = Ok false /\
  matchDescription L g (PDict [(PStr "a", va)]) false = Ok true.
Proof.
  intros Ha Hb Hma Hmb Hma' g. unfold g.
  rewrite !matchDescription_Group.
  unfold Attribute_matchDescription, countMatches, childMatches. simpl.
  unfold GroupAttribute_validateValue, commonKeys_nonempty. simpl.
  rewrite Ha, Hb. simpl.
  rewrite Hma, Hmb, Hma'. simpl. auto.
Qed.

End MatchFacts.

Lemma GroupAttribute_matchDescription_ab_witness :
  let g := group_ab in
  matchDescription plain_lib g (PDict [(PStr "a", PInt 1); (PStr "b", PInt 2)]) true
  = Ok true /\
  matchDescription plain_lib g (PDict [(PStr "a", PInt 1)]) true = Ok false /\
  matchDescription plain_lib g (PDict [(PStr "a", PInt 1)]) false = Ok true.
Proof.
  apply (GroupAttribute_matchDescription_ab plain_lib
           (mkInt "a" (PInt 0) []) (mkInt "b" (PInt 0) [])
           (PInt 1) (PInt 2) (mkBase "g" (PDict [])) " ");
    reflexivity.
Defined.

End DescFacts.

(** ** CommandExecutor *)

Module ExecFacts.
Import Py.
Import Exec.

(** Unfolding the monad of [Exec]. *)
Ltac run :=
  unfold processChunk, processChunk_try, stopProcess, try_finally, try_except_NoSuchProcess,
    open_write, saveStatusFile, print, Popen, communicate_wait, read_file,
    children_recursive, terminate, log_event, modify_chunk, modify_world, get_chunk, get_world,
    raise, base.mbind, M_bind, Exec.mbind, base.mret, M_ret, ret in *;
  simpl in *.

(** Whatever happens, the handle of the chunk is [None] afterwards. *)
Lemma processChunk_clears_handle (E : Env) (build : Chunk -> result string)
  (c : Chunk) (w : World) :
  subprocess (fst (snd (processChunk E build (c, w)))) = Some None.
Proof.
  unfold processChunk, try_finally.
  destruct (processChunk_try E build (c, w)) as [r [c1 w1]]. reflexivity.
Qed.




(** The run of a process that exits with a code other than 0 and
    whose output does not decode: the exception of the decoder comes out
    in place of the error with the log. *)
Lemma processChunk_undecodable_run (E : Env) (build : Chunk -> result string)
  (c : Chunk) (w : World) (cmd out : string) (pid : Z) (e : exn) :
  open_write_fails E (logFile c) = None ->
  build c = Ok cmd ->
  save_fails E = None ->
  popen_result E cmd = Ok pid ->
  communicate_result E pid = Ok out ->
  decode_log E out = Raise e ->
  returncode E pid <> 0 ->
  exists (c' : Chunk) (w' : World),
    processChunk E build (c, w) = (Raise e, (c', w')) /\
    returnCode (status c') = Some (returncode E pid) /\
    subprocess c' = Some None.
Proof.
  intros Ho Hb Hs Hp Hc Hd Hrc.
  run. rewrite Ho. simpl. rewrite Hb. run. rewrite Hs. run. rewrite Hp. run.
  rewrite Hc. run.
  destruct (returncode E pid =? 0) eqn:Erc; [apply Z.eqb_eq in Erc; contradiction|].
  simpl. rewrite !lookup_insert_eq. simpl.
  change (EmptyString +:+ out) with out. rewrite Hd. simpl.
  eexists _, _. repeat split.
Qed.





(** *** stopProcess *)

(** Without a handle, [stopProcess] does nothing. *)
Lemma stopProcess_no_handle (E : Env) (c : Chunk) (w : World) :
  subprocess c = None \/ subprocess c = Some None ->
  stopProcess E (c, w) = (Ok tt, (c, w)).
Proof.
  intros [H|H]; run; rewrite H; reflexivity.
Qed.

(** The loop over the processes stops at the first one that is gone. *)
Lemma for_each_terminate (ps : list Z) (c : Chunk) (w : World) :
  exists done : list Z,
    prefix done ps /\
    snd (for_each ps terminate (c, w))
    = (c, MkWorld (files w) (statusFile w) (existing w)
            (trace w ++ map EvTerminate done)) /\
    (fst (for_each ps terminate (c, w)) = Ok tt \/
     fst (for_each ps terminate (c, w)) = Raise NoSuchProcess) /\
    (Forall (fun p => p ∈ existing w) ps -> done = ps) /\
    (forall p rest, ps = p :: rest -> p ∉ existing w -> done = []).
Proof.
  revert w. induction ps as [|p ps IH]; intros w.
  - exists []. simpl. rewrite app_nil_r. destruct w. repeat split; auto.
  - simpl. run. destruct (decide (p ∈ existing w)) as [Hin|Hout]; simpl.
    + destruct (IH (MkWorld (files w) (statusFile w) (existing w)
                      (trace w ++ [EvTerminate p]))) as (done & Hpre & Hs & Hr & Hall & _).
      exists (p :: done). simpl in *.
      split; [apply prefix_cons; exact Hpre|].
      split; [rewrite Hs, <- app_assoc; reflexivity|].
      split; [exact Hr|].
      split.
      * intros HF. apply Forall_cons in HF as [_ HF]. f_equal. apply Hall, HF.
      * intros p' rest [= <- <-] Hn. contradiction.
    + exists []. simpl. rewrite app_nil_r. destruct w.
      repeat split; auto using prefix_nil.
      intros HF. apply Forall_cons in HF as [HF _]. contradiction.
Qed.

(** While the process of the handle exists, [stopProcess] returns
    without raising. *)
Lemma stopProcess_returns (E : Env) (c : Chunk) (w : World) (pid : Z) :
  subprocess c = Some (Some pid) -> pid ∈ existing w ->
  fst (stopProcess E (c, w)) = Ok tt.
Proof.
  intros Hs Hin. unfold stopProcess. run. rewrite Hs. simpl.
  destruct (decide (pid ∈ existing w)) as [_|Hout]; [|contradiction]. simpl.
  destruct (for_each_terminate (children E pid ++ [pid]) c w)
    as (done & _ & _ & [Hr|Hr] & _).
  - destruct (for_each _ _ _) as [r s]. simpl in Hr. subst r. reflexivity.
  - destruct (for_each _ _ _) as [r s]. simpl in Hr. subst r. reflexivity.
Qed.

(** Once the process of the handle is gone, enumerating its
    descendants raises, outside the [try]: [stopProcess] lets
    [NoSuchProcess] out and terminates nothing. *)
Lemma stopProcess_gone_raises (E : Env) (c : Chunk) (w : World) (pid : Z) :
  subprocess c = Some (Some pid) -> pid ∉ existing w ->
  stopProcess E (c, w) = (Raise NoSuchProcess, (c, w)).
Proof.
  intros Hs Hout. unfold stopProcess. run. rewrite Hs. simpl.
  destruct (decide (pid ∈ existing w)) as [Hin|_]; [contradiction|].
  reflexivity.
Qed.

(** X23: when every enumerated process still exists, each is terminated. *)
Lemma stopProcess_all_exist (E : Env) (c : Chunk) (w : World) (pid : Z) :
  subprocess c = Some (Some pid) ->
  Forall (fun p => p ∈ existing w) (children E pid ++ [pid]) ->
  terminated (snd (snd (stopProcess E (c, w))))
  = terminated w ++ children E pid ++ [pid].
Proof.
  intros Hs Hall. unfold stopProcess. run. rewrite Hs. simpl.
  assert (Hin : pid ∈ existing w).
  { apply Forall_app in Hall as [_ Hp]. apply Forall_cons in Hp as [Hp _].
    exact Hp. }
  destruct (decide (pid ∈ existing w)) as [_|Hout]; [|contradiction]. simpl.
  destruct (for_each_terminate (children E pid ++ [pid]) c w)
    as (done & _ & Hsnd & _ & Hd & _).
  rewrite (Hd Hall) in Hsnd.
  destruct (for_each _ _ _) as [r s]. simpl in Hsnd. subst s.
  assert (Ht : forall l, terminated
             (MkWorld (files w) (statusFile w) (existing w)
                (trace w ++ map EvTerminate l)) = terminated w ++ l).
  { intros l. unfold terminated. simpl. rewrite omap_app. f_equal.
    induction l as [|x l IHl]; simpl; [reflexivity|]. f_equal. exact IHl. }
  destruct r as [u|e]; [|destruct (is_NoSuchProcess e)]; simpl; apply Ht.
Qed.

(** When the first enumerated process is gone, no process is
    terminated, whichever of the others still exist. *)
Lemma stopProcess_first_gone (E : Env) (c : Chunk) (w : World) (pid p : Z)
  (rest : list Z) :
  subprocess c = Some (Some pid) ->
  pid ∈ existing w ->
  children E pid = p :: rest ->
  p ∉ existing w ->
  stopProcess E (c, w) = (Ok tt, (c, w)).
Proof.
  intros Hs Hin Hch Hp. unfold stopProcess. run. rewrite Hs. simpl.
  destruct (decide (pid ∈ existing w)) as [_|Hout]; [|contradiction]. simpl.
  destruct (for_each_terminate (children E pid ++ [pid]) c w)
    as (done & _ & Hsnd & Hr & _ & Hd).
  assert (Hdone : done = []) by (apply (Hd p (rest ++ [pid])); [rewrite Hch|]; auto).
  subst done. simpl in Hsnd. rewrite app_nil_r in Hsnd.
  destruct (for_each _ _ _) as [r s]. simpl in *. subst s.
  destruct w. simpl.
  destruct Hr as [-> | ->]; reflexivity.
Qed.

(** C7: the chunk runs process 10 with descendants 11 and 12; 11 has
    already exited while 12 and 10 still exist.  [stopProcess] returns
    without raising, and it has terminated no process: the exception
    raised for 11 ends the loop before 12 and 10 are reached. *)
Theorem stopProcess_abandons_survivors :
  Samples.children_of_10 = [11; 12] /\
  stopProcess Samples.tree_env (Samples.running_chunk, Samples.tree_world)
  = (Ok tt, (Samples.running_chunk, Samples.tree_world)) /\
  terminated (snd (snd (stopProcess Samples.tree_env
                          (Samples.running_chunk, Samples.tree_world)))) = [] /\
  bool_decide (12 ∈ existing Samples.tree_world) = true /\
  bool_decide (10 ∈ existing Samples.tree_world) = true /\
  bool_decide (11 ∈ existing Samples.tree_world) = false.
Proof.
  vm_compute. repeat split.
Qed.

End ExecFacts.

(** ** SizingModel: the covered set, neighbours, the static strategy *)

Module SizingMore.
Import Py.
Import Parallelization.
Import SizingFacts.

(** X1: for a block size and a logical size that are positive and below
    2^53, the indices covered by the ranges of a node are exactly those
    from 0 up to the logical size, and the logical size itself when the
    block size does not divide it. *)
Theorem getRanges_covered_set (p : Parallelization) (node : Node.Node)
  (rs : list Range.Range) (x : Z) :
  0 < blockSize p < 2 ^ 53 -> 0 < Node.size node < 2 ^ 53 ->
  getRanges p node = Ok rs ->
  ((exists (i : nat) (r : Range.Range),
      rs !! i = Some r /\ Range.covers r x = true)
   <-> 0 <= x < Node.size node
               + (if Node.size node mod blockSize p =? 0 then 0 else 1)).
Proof.
  intros Hb Hs Hrs.
  assert (Hb0 : 0 < blockSize p) by lia.
  assert (Hs0 : 0 < Node.size node) by lia.
  split.
  - intros (i & r & Hi & Hc).
    rewrite getRanges_blockSize in Hrs by lia. injection Hrs as <-.
    apply ranges_lookup in Hi as [-> Hin].
    pose proof (ceil_bounds (Node.size node) (blockSize p) Hb0) as Hn.
    pose proof (end_last (blockSize p) (Node.size node) Hb0 Hs0) as He.
    clear Hb Hs.
    set (n := (Node.size node + blockSize p - 1) / blockSize p) in *. clearbody n.
    set (b := blockSize p) in *. set (s := Node.size node) in *.
    unfold Range.covers in Hc. apply andb_true_iff in Hc as [Hc1 Hc2].
    apply Z.leb_le in Hc1. apply Z.ltb_lt in Hc2.
    assert (Hstart : Range.start (Range.MkRange (Z.of_nat i) b s) = Z.of_nat i * b)
      by reflexivity.
    rewrite Hstart in Hc1. split; [nia|].
    destruct (Z.eq_dec (Z.of_nat i) (n - 1)) as [Heq|Hne].
    + rewrite Heq in Hc2. rewrite He in Hc2.
      destruct (s mod b =? 0); lia.
    + unfold Range.end_ in Hc2. rewrite Hstart in Hc2.
      rewrite effectiveBlockSize_inner in Hc2 by nia.
      assert (Z.of_nat i + 2 <= n) by lia.
      destruct (s mod b =? 0); nia.
  - intros Hx.
    destruct (Z_lt_le_dec x (Node.size node)) as [Hlt|Hge].
    + apply (getRanges_cover_below p node rs x); auto. lia.
    + destruct (Node.size node mod blockSize p =? 0) eqn:Em; [lia|].
      assert (x = Node.size node) by lia. subst x.
      apply Z.eqb_neq in Em.
      destruct (getRanges_last_overrun p node rs Hb Hs Em Hrs) as (r & Hl & Hc).
      eauto.
Qed.

Lemma getRanges_covered_set_witness :
  (exists (i : nat) (r : Range.Range),
     [Range.MkRange 0 2 5; Range.MkRange 1 2 5; Range.MkRange 2 2 5] !! i = Some r /\
     Range.covers r 5 = true)
  <-> 0 <= 5 < 5 + 1.
Proof.
  apply (getRanges_covered_set (MkParallelization 0 2) (Node.MkNode 5 ∅)
           [Range.MkRange 0 2 5; Range.MkRange 1 2 5; Range.MkRange 2 2 5] 5);
    [split; reflexivity | split; reflexivity | reflexivity].
Defined.

(** X3: for a block size and a logical size that are positive and below
    2^53, each range ends where the next one starts. *)
Theorem getRanges_contiguous (p : Parallelization) (node : Node.Node)
  (rs : list Range.Range) (i : nat) (r r' : Range.Range) :
  0 < blockSize p < 2 ^ 53 -> 0 < Node.size node < 2 ^ 53 ->
  getRanges p node = Ok rs ->
  rs !! i = Some r -> rs !! S i = Some r' ->
  Range.end_ r = Range.start r' /\ Range.last r + 1 = Range.start r'.
Proof.
  intros Hb Hs Hrs Hi Hi'.
  rewrite getRanges_blockSize in Hrs by lia. injection Hrs as <-.
  apply ranges_lookup in Hi as [-> Hin], Hi' as [-> Hin'].
  assert (Hb0 : 0 < blockSize p) by lia.
  pose proof (ceil_bounds (Node.size node) (blockSize p) Hb0) as Hn.
  unfold Range.last, Range.end_.
  rewrite effectiveBlockSize_inner by nia.
  unfold Range.start. simpl. lia.
Qed.

Lemma getRanges_contiguous_witness :
  Range.end_ (Range.MkRange 0 2 5) = Range.start (Range.MkRange 1 2 5) /\
  Range.last (Range.MkRange 0 2 5) + 1 = Range.start (Range.MkRange 1 2 5).
Proof.
  apply (getRanges_contiguous (MkParallelization 0 2) (Node.MkNode 5 ∅)
           [Range.MkRange 0 2 5; Range.MkRange 1 2 5; Range.MkRange 2 2 5] 0);
    [split; reflexivity | split; reflexivity | reflexivity | reflexivity
    | reflexivity].
Defined.

Lemma getRanges_disjoint_witness :
  Range.covers (Range.MkRange 2 2 5) 2 = false.
Proof.
  apply (getRanges_disjoint (MkParallelization 0 2) (Node.MkNode 5 ∅)
           [Range.MkRange 0 2 5; Range.MkRange 1 2 5; Range.MkRange 2 2 5]
           1%nat 2%nat (Range.MkRange 1 2 5) (Range.MkRange 2 2 5) 2);
    [simpl; lia | simpl; lia | reflexivity | reflexivity | reflexivity | lia | reflexivity].
Defined.

(** X4: with a static block count n > 0 and no block size, whatever the
    size of the node, there are n ranges and the range at position i
    covers the index i and no other. *)
Theorem getRanges_static (node : Node.Node) (n : Z) :
  0 < n ->
  exists rs : list Range.Range,
    getRanges (MkParallelization n 0) node = Ok rs /\
    Z.of_nat (List.length rs) = n /\
    forall (i : nat) (r : Range.Range), rs !! i = Some r ->
      r = Range.MkRange (Z.of_nat i) 1 n /\
      Range.effectiveBlockSize r = 1 /\
      forall x : Z, Range.covers r x = true <-> x = Z.of_nat i.
Proof.
  intros Hn. unfold getRanges, getSizes. simpl.
  destruct (n =? 0) eqn:E; [apply Z.eqb_eq in E; lia|]. simpl.
  eexists. split; [reflexivity|].
  rewrite length_map. split; [apply py_range_length; lia|].
  intros i r Hr. apply ranges_lookup in Hr as [-> Hlt].
  assert (He : Range.effectiveBlockSize (Range.MkRange (Z.of_nat i) 1 n) = 1).
  { unfold Range.effectiveBlockSize, Range.start. simpl.
    destruct (n - Z.of_nat i * 1 + 1 >=? 1) eqn:E1; lia. }
  repeat split; auto.
  - unfold Range.covers, Range.end_. rewrite He. unfold Range.start. simpl.
    intros H. apply andb_true_iff in H as [H1 H2].
    apply Z.leb_le in H1. apply Z.ltb_lt in H2. lia.
  - intros ->. unfold Range.covers, Range.end_. rewrite He.
    unfold Range.start. simpl.
    apply andb_true_iff. split; [apply Z.leb_le | apply Z.ltb_lt]; lia.
Qed.

Lemma getRanges_static_witness :
  exists rs : list Range.Range,
    getRanges (MkParallelization 3 0) (Node.MkNode 7 ∅) = Ok rs /\
    Z.of_nat (List.length rs) = 3 /\
    forall (i : nat) (r : Range.Range), rs !! i = Some r ->
      r = Range.MkRange (Z.of_nat i) 1 3 /\
      Range.effectiveBlockSize r = 1 /\
      forall x : Z, Range.covers r x = true <-> x = Z.of_nat i.
Proof.
  apply (getRanges_static (Node.MkNode 7 ∅) 3). lia.
Defined.

(** [getRange] at a block index is the entry of [getRanges] at that
    position. *)
Theorem getRange_getRanges (p : Parallelization) (node : Node.Node)
  (rs : list Range.Range) (i : nat) (r : Range.Range) :
  getRanges p node = Ok rs ->
  rs !! i = Some r ->
  getRange p node (Z.of_nat i) = Ok r.
Proof.
  unfold getRanges, getRange.
  destruct (getSizes p node) as [[[[b f] n]|]|e]; simpl; try discriminate.
  intros [= <-] Hr. apply ranges_lookup in Hr as [-> _]. reflexivity.
Qed.

Lemma getRange_getRanges_witness :
  getRange (MkParallelization 0 2) (Node.MkNode 5 ∅) (Z.of_nat 2)
  = Ok (Range.MkRange 2 2 5).
Proof.
  apply (getRange_getRanges (MkParallelization 0 2) (Node.MkNode 5 ∅)
           [Range.MkRange 0 2 5; Range.MkRange 1 2 5; Range.MkRange 2 2 5] 2);
    reflexivity.
Defined.

(** X5: with a block size that is positive and below 2^53, a node of
    size zero or less (above -2^53) has no range at all. *)
Theorem getRanges_empty (p : Parallelization) (node : Node.Node) :
  0 < blockSize p < 2 ^ 53 -> - 2 ^ 53 < Node.size node <= 0 ->
  getRanges p node = Ok [].
Proof.
  intros Hb Hs.
  assert (H53 : 0 < 2 ^ 53) by reflexivity.
  rewrite getRanges_blockSize by lia.
  assert (Hb0 : 0 < blockSize p) by lia.
  pose proof (ceil_bounds (Node.size node) (blockSize p) Hb0) as Hn.
  assert (Hle : (Node.size node + blockSize p - 1) / blockSize p <= 0) by nia.
  unfold py_range.
  replace (Z.to_nat ((Node.size node + blockSize p - 1) / blockSize p))
    with 0%nat by lia.
  reflexivity.
Qed.

Lemma getRanges_empty_witness :
  getRanges (MkParallelization 0 3) (Node.MkNode 0 ∅) = Ok [].
Proof.
  apply (getRanges_empty (MkParallelization 0 3) (Node.MkNode 0 ∅));
    split; (reflexivity || discriminate).
Defined.

(** Beyond the range of a double the conversion of the block size
    raises: with block size 2^1024 no list of ranges is returned, even for
    a node of size zero. *)
Lemma getRanges_blockSize_overflow :
  getRanges (MkParallelization 0 (2 ^ 1024)) (Node.MkNode 0 ∅)
  = Raise (OtherError "OverflowError").
Proof.
  vm_compute. reflexivity.
Qed.

End SizingMore.

(** ** Node sizes: sums *)

Module NodeSizeMore.
Import Py.
Import NodeSizeFacts.

Lemma computeSize_loop_app (ps qs : list string) (g : Node.Graph)
  (node : Node.Node) (size : Z) :
  MultiDynamicNodeSize.computeSize_loop (ps ++ qs) g node size
  = bind (MultiDynamicNodeSize.computeSize_loop ps g node size)
      (fun a => MultiDynamicNodeSize.computeSize_loop qs g node a).
Proof.
  revert size. induction ps as [|nm ps IH]; intros size; simpl; [reflexivity|].
  destruct (Node.attribute node nm) as [param|e]; simpl; [|reflexivity].
  destruct (Node.isLink param).
  - destruct (Node.getLinkParam_node g param); simpl; [apply IH | reflexivity].
  - destruct (Desc.is_ListAttribute (Node.desc param)); [|apply IH].
    destruct (Node.len param); simpl; [apply IH | reflexivity].
Qed.

(** X6: the size over two lists of names put one after the other is the
    sum of the two sizes; an exception of the first list comes first. *)
Theorem computeSize_app (ps qs : list string) (g : Node.Graph)
  (node : Node.Node) :
  MultiDynamicNodeSize.computeSize (ps ++ qs) g node
  = bind (MultiDynamicNodeSize.computeSize ps g node) (fun a =>
      bind (MultiDynamicNodeSize.computeSize qs g node) (fun b =>
        Ok (a + b))).
Proof.
  unfold MultiDynamicNodeSize.computeSize.
  rewrite computeSize_loop_app.
  destruct (MultiDynamicNodeSize.computeSize_loop ps g node 0) as [a|e]; simpl;
    [|reflexivity].
  apply computeSize_loop_acc.
Qed.

Lemma computeSize_single_agree_witness :
  DynamicNodeSize.computeSize "viewpoints" ∅ Samples2.list_node
  = bind (MultiDynamicNodeSize.computeSize ["viewpoints"%string] ∅ Samples2.list_node)
      (fun z => Ok (PInt z)).
Proof.
  apply (computeSize_single_agree "viewpoints" ∅ Samples2.list_node
           (Node.MkAttribute
              (Desc.mkList (Desc.mkInt "viewId" (PInt 0) []) "viewpoints")
              (PList [PInt 1; PInt 2; PInt 3]) None));
    reflexivity.
Defined.

End NodeSizeMore.

(** ** AttributeSchema: validated values, uid paths, matching *)

Module DescMore.
Import Py.
Import Desc.
Import Reading.
Import Kinds.
Import Uid.
Import Samples.
Import DescFacts.

Section ValidateMore.
Context (L : Py.Lib).

(** X8: a value that [validateValue] returns has the type of the kind:
    the validated value of an IntParam is an [int], of a BoolParam a
    [bool], and so on. *)
Theorem validateValue_has_kind (d : Attribute) (v v' : Py.value) :
  is_ChoiceParam d = false ->
  validateValue L d v = Ok v' ->
  has_kind d v' = true.
Proof.
  intros Hc Hv. destruct d; try discriminate; simpl in Hv.
  - unfold ListAttribute_validateValue in Hv.
    destruct (isinstance_JSValue v); [discriminate|].
    destruct (match v with PStr s => literal_eval L s | _ => Ok v end) as [w|e];
      simpl in Hv; [|discriminate].
    destruct w; simpl in Hv; try discriminate; injection Hv as <-; reflexivity.
  - unfold GroupAttribute_validateValue in Hv.
    destruct (isinstance_JSValue v); [discriminate|].
    destruct (match v with PStr s => literal_eval L s | _ => Ok v end) as [w|e];
      simpl in Hv; [|discriminate].
    destruct w; simpl in Hv; try discriminate.
    + destruct (negb (Nat.eqb (List.length l) (List.length groupDesc)));
        [discriminate|]. injection Hv as <-. reflexivity.
    + destruct (negb (Nat.eqb (List.length l) (List.length groupDesc)));
        [discriminate|]. injection Hv as <-. reflexivity.
    + destruct (negb (Nat.eqb (List.length groupDesc) 0));
        [destruct (negb (commonKeys_nonempty items (map attr_name groupDesc)));
           [discriminate|]|];
        injection Hv as <-; reflexivity.
  - unfold File_validateValue in Hv. destruct v; try discriminate.
    destruct (truthy (PStr s)); injection Hv as <-; reflexivity.
  - unfold BoolParam_validateValue in Hv.
    destruct v; simpl in Hv; try (injection Hv as <-; reflexivity).
    destruct (strtobool s); simpl in Hv; [|discriminate].
    injection Hv as <-. reflexivity.
  - unfold IntParam_validateValue in Hv.
    destruct (py_int L v); simpl in Hv; [|discriminate].
    injection Hv as <-. reflexivity.
  - unfold FloatParam_validateValue in Hv.
    destruct (py_float L v); simpl in Hv; [|discriminate].
    injection Hv as <-. reflexivity.
  - unfold StringParam_validateValue in Hv.
    destruct v; simpl in Hv; try discriminate. injection Hv as <-. reflexivity.
  - unfold ColorParam_validateValue in Hv. destruct v; try discriminate.
    destruct (Nat.ltb 1 (List.length (split " " s))); [discriminate|].
    injection Hv as <-. reflexivity.
Qed.

(** X9: validating again a value that [validateValue] returned gives it
    back unchanged, for every kind but File and Choice. *)
Theorem validateValue_idempotent (d : Attribute) (v v' : Py.value) :
  is_stable d = true ->
  validateValue L d v = Ok v' ->
  validateValue L d v' = Ok v'.
Proof.
  intros Hs Hv. destruct d; try discriminate; cbn [validateValue] in *.
  - unfold ListAttribute_validateValue in *.
    destruct (isinstance_JSValue v); [discriminate|].
    destruct (match v with PStr s => literal_eval L s | _ => Ok v end) as [w|e];
      simpl in Hv; [|discriminate].
    destruct w; simpl in Hv; try discriminate; injection Hv as <-; reflexivity.
  - unfold GroupAttribute_validateValue in *.
    destruct (isinstance_JSValue v); [discriminate|].
    destruct (match v with PStr s => literal_eval L s | _ => Ok v end) as [w|e];
      simpl in Hv; [|discriminate].
    destruct w; simpl in Hv; try discriminate.
    + destruct (negb (Nat.eqb (List.length l) (List.length groupDesc))) eqn:E;
        [discriminate|]. injection Hv as <-.
      cbn [isinstance_JSValue bind]. rewrite ?E. reflexivity.
    + destruct (negb (Nat.eqb (List.length l) (List.length groupDesc))) eqn:E;
        [discriminate|]. injection Hv as <-.
      cbn [isinstance_JSValue bind]. rewrite ?E. reflexivity.
    + destruct (negb (Nat.eqb (List.length groupDesc) 0)) eqn:E1.
      * destruct (negb (commonKeys_nonempty items (map attr_name groupDesc))) eqn:E2;
          [discriminate|]. injection Hv as <-.
        cbn [isinstance_JSValue bind]. rewrite ?E1, ?E2. reflexivity.
      * injection Hv as <-. cbn [isinstance_JSValue bind]. rewrite ?E1. reflexivity.
  - assert (Hk : exists b0 : bool, v' = PBool b0).
    { unfold BoolParam_validateValue in Hv.
      destruct v; simpl in Hv; try (injection Hv as <-; eauto).
      destruct (strtobool s); simpl in Hv; [|discriminate].
      injection Hv as <-. eauto. }
    destruct Hk as [b0 ->]. destruct b0; reflexivity.
  - unfold IntParam_validateValue in *.
    destruct (py_int L v); simpl in Hv; [|discriminate].
    injection Hv as <-. reflexivity.
  - unfold FloatParam_validateValue in *.
    destruct (py_float L v); simpl in Hv; [|discriminate].
    injection Hv as <-. reflexivity.
  - unfold StringParam_validateValue in *.
    destruct v; simpl in Hv; try discriminate. injection Hv as <-. reflexivity.
  - unfold ColorParam_validateValue in *. destruct v; try discriminate.
    destruct (Nat.ltb 1 (List.length (split " " s))) eqn:E; [discriminate|].
    injection Hv as <-. rewrite E. reflexivity.
Qed.

Lemma conformValue_in (values : list Py.value) (val v' : Py.value) :
  conformValue L values val = Ok v' -> py_in L v' values = true.
Proof.
  unfold conformValue.
  destruct (call_type_of L (valueType_example values) val) as [w|e]; simpl;
    [|discriminate].
  destruct (py_in L w values) eqn:E; simpl; [|discriminate].
  intros [= <-]. exact E.
Qed.

Lemma map_result_conform (values : list Py.value) (l l' : list Py.value) :
  map_result (conformValue L values) l = Ok l' ->
  forallb (fun x => py_in L x values) l' = true.
Proof.
  revert l'. induction l as [|x l IH]; intros l'; simpl.
  - intros [= <-]. reflexivity.
  - destruct (conformValue L values x) as [y|e] eqn:Ey; simpl; [|discriminate].
    destruct (map_result (conformValue L values) l) as [ys|e]; simpl; [|discriminate].
    intros [= <-]. simpl. rewrite (conformValue_in _ _ _ Ey), (IH ys eq_refl).
    reflexivity.
Qed.

(** X10: what a ChoiceParam returns is allowed: the value itself when the
    choice is exclusive, every element of the returned list otherwise. *)
Theorem ChoiceParam_validateValue_allowed (b : AttrBase)
  (values : list Py.value) (exclusive : bool) (j : string) (v v' : Py.value) :
  validateValue L (ChoiceParam b values exclusive j) v = Ok v' ->
  if exclusive then py_in L v' values = true
  else exists l : list Py.value,
         v' = PList l /\ forallb (fun x => py_in L x values) l = true.
Proof.
  simpl. unfold ChoiceParam_validateValue. destruct exclusive.
  - apply conformValue_in.
  - destruct (iterate _) as [elems|]; [|discriminate].
    destruct (map_result (conformValue L values) elems) as [l|e] eqn:El; simpl;
      [|discriminate].
    intros [= <-]. exists l. split; [reflexivity|].
    eapply map_result_conform, El.
Qed.

Lemma replace_char_absent (a b : ascii) (s : string) :
  a <> b -> has_char a (replace_char a b s) = false.
Proof.
  intros Hab. unfold has_char. induction s as [|c s IH]; simpl; [reflexivity|].
  rewrite IH, orb_false_r.
  destruct (Ascii.eqb c a) eqn:E.
  - apply Ascii.eqb_neq. exact Hab.
  - rewrite Ascii.eqb_sym. exact E.
Qed.

(** X11: a File value is accepted only if it is a string, and what is
    returned is a string without any backslash. *)
Theorem File_validateValue_forward_slashes (b : AttrBase) (v v' : Py.value) :
  validateValue L (File b) v = Ok v' ->
  isinstance_str v = true /\
  exists s : string, v' = PStr s /\ has_char "\" s = false.
Proof.
  simpl. unfold File_validateValue. destruct v; try discriminate.
  destruct (truthy (PStr s)); intros [= <-]; (split; [reflexivity|]);
    eexists; (split; [reflexivity|]).
  - apply replace_char_absent. discriminate.
  - reflexivity.
Qed.

Lemma split_acc_nonempty (sep : ascii) (s cur : string) :
  (1 <= List.length (split_acc sep s cur))%nat.
Proof.
  revert cur. induction s as [|c s IH]; intros cur; simpl; [lia|].
  destruct (Ascii.eqb c sep); simpl; [lia | apply IH].
Qed.

Lemma split_several (sep : ascii) (s : string) :
  Nat.ltb 1 (List.length (split sep s)) = has_char sep s.
Proof.
  unfold split, has_char. generalize EmptyString as cur.
  induction s as [|c s IH]; intros cur; simpl; [reflexivity|].
  rewrite (Ascii.eqb_sym sep c).
  destruct (Ascii.eqb c sep); simpl.
  - pose proof (split_acc_nonempty sep s EmptyString).
    apply Nat.ltb_lt. lia.
  - apply IH.
Qed.

End ValidateMore.

(** X12: a colour is accepted exactly when it is a string without a
    space, and it is returned unchanged; the empty string is a colour. *)
Theorem ColorParam_validateValue_cases (v : Py.value) :
  ColorParam_validateValue v
  = match v with
    | PStr s => if has_char " " s then Raise ValueError else Ok (PStr s)
    | _ => Raise ValueError
    end.
Proof.
  destruct v; try reflexivity.
  unfold ColorParam_validateValue. rewrite split_several. reflexivity.
Qed.

Lemma validateValue_has_kind_witness :
  has_kind (mkInt "n" (PInt 0) []) (PInt 1) = true.
Proof.
  apply (validateValue_has_kind plain_lib (mkInt "n" (PInt 0) []) (PBool true) (PInt 1));
    reflexivity.
Defined.

Lemma validateValue_idempotent_witness :
  validateValue plain_lib (mkBool "b" (PBool false)) (PBool true) = Ok (PBool true).
Proof.
  apply (validateValue_idempotent plain_lib (mkBool "b" (PBool false))
           (PStr "Yes") (PBool true)); reflexivity.
Defined.

Lemma ChoiceParam_validateValue_allowed_witness :
  py_in plain_lib (PInt 4) [PInt 1; PInt 2; PInt 4; PInt 8; PInt 16] = true.
Proof.
  apply (ChoiceParam_validateValue_allowed plain_lib (mkBase "downscale" (PInt 2))
           [PInt 1; PInt 2; PInt 4; PInt 8; PInt 16] true " " (PInt 4) (PInt 4)).
  reflexivity.
Defined.

Lemma File_validateValue_forward_slashes_witness :
  isinstance_str (PStr "C:\data\sfm.abc") = true /\
  exists s : string, PStr "C:/data/sfm.abc" = PStr s /\ has_char "\" s = false.
Proof.
  apply (File_validateValue_forward_slashes plain_lib (mkBase "input" (PStr EmptyString))
           (PStr "C:\data\sfm.abc") (PStr "C:/data/sfm.abc")).
  reflexivity.
Defined.

(** *** uid paths *)

(** X13: the uid path of a descriptor is the concatenation, from left to
    right, of the uid paths stored in the scalar descriptors below it;
    what a list or a group stores itself plays no part. *)
Theorem uid_of_leaves (d : Attribute) :
  uid_of d = flat_map (fun leaf => uid (base_of leaf)) (leaves d).
Proof.
  induction d using Attribute_nested_ind; simpl; try (rewrite app_nil_r; reflexivity).
  - exact IHd.
  - induction H as [|a gd Ha _ IH]; simpl; [reflexivity|].
    rewrite flat_map_app, Ha, IH. reflexivity.
Qed.

(** *** checkValueTypes and ColorParam *)

Lemma collectInvalid_cases (gd : list Attribute) :
  Forall (fun d => checkValueTypes d
                   = if color_free d then Ok (checkValueTypes_reading d)
                     else Raise NotImplementedError) gd ->
  collectInvalid gd
  = if forallb color_free gd
    then Ok (List.filter nonempty (map checkValueTypes_reading gd))
    else Raise NotImplementedError.
Proof.
  induction 1 as [|a gd Ha _ IH]; simpl; [reflexivity|].
  rewrite Ha. destruct (color_free a); simpl; [|reflexivity].
  rewrite IH. destruct (forallb color_free gd); simpl; [|reflexivity].
  unfold appendIfName, nonempty.
  destruct (negb (checkValueTypes_reading a =? EmptyString)%string); reflexivity.
Qed.

(** X14: [checkValueTypes] raises NotImplementedError exactly on the
    descriptors that hold a ColorParam, at any depth; on all others it
    returns. *)
Theorem checkValueTypes_raises_on_color (d : Attribute) :
  checkValueTypes d
  = if color_free d then Ok (checkValueTypes_reading d)
    else Raise NotImplementedError.
Proof.
  induction d using Attribute_nested_ind; try reflexivity.
  - simpl. exact IHd.
  - rewrite checkValueTypes_Group, (collectInvalid_cases gd H).
    simpl color_free. destruct (forallb color_free gd); [|reflexivity].
    simpl checkValueTypes_reading.
    destruct (List.filter nonempty (map checkValueTypes_reading gd)) as [|r rs];
      [reflexivity|].
    simpl bind. rewrite joinInvalid_concat. reflexivity.
  - simpl. destruct (isinstance_str (value b)), (callable (value b)); reflexivity.
  - simpl. destruct (isinstance_bool (value b)); reflexivity.
  - simpl. destruct (isinstance_int (value b)), r as [|x r]; try reflexivity.
    simpl. destruct (isinstance_int x && forallb isinstance_int r)%bool; reflexivity.
  - simpl. destruct (isinstance_float (value b)), r as [|x r]; try reflexivity.
    simpl. destruct (isinstance_float x && forallb isinstance_float r)%bool; reflexivity.
  - simpl. destruct (isinstance_str (value b)); reflexivity.
Qed.

(** *** matchDescription of lists and groups *)

Section MatchMore.
Context (L : Py.Lib).

(** A list matches when its first element matches the element
    descriptor, whatever follows; the empty list matches. *)
Theorem matchDescription_list_first (e : Attribute) (b : AttrBase) (j : string)
  (x : Py.value) (l : list Py.value) (strict : bool) :
  matchDescription L (ListAttribute e b j) (PList (x :: l)) strict
  = matchDescription L e x strict /\
  matchDescription L (ListAttribute e b j) (PTuple (x :: l)) strict
  = matchDescription L e x strict /\
  matchDescription L (ListAttribute e b j) (PList []) strict = Ok true /\
  matchDescription L (ListAttribute e b j) (PTuple []) strict = Ok true.
Proof.
  repeat split.
Qed.

(** X15: a value that a group accepts without being a dict (a list or
    tuple of the right length, or a string that parses to an accepted
    value) makes [matchDescription] raise AttributeError. *)
Theorem matchDescription_group_not_dict (gd : list Attribute) (b : AttrBase)
  (j : string) (v v' : Py.value) (strict : bool) :
  isinstance_dict v = false ->
  validateValue L (GroupAttribute gd b j) v = Ok v' ->
  matchDescription L (GroupAttribute gd b j) v strict = Raise AttributeError.
Proof.
  intros Hd Hv. rewrite matchDescription_Group.
  unfold Attribute_matchDescription. rewrite Hv. simpl.
  destruct v; try reflexivity. discriminate.
Qed.

(** X16: a group without children matches the empty dict only, and only
    in strict mode: no dict matches it in non-strict mode. *)
Theorem matchDescription_empty_group (b : AttrBase) (j : string)
  (items : list (Py.value * Py.value)) :
  matchDescription L (GroupAttribute [] b j) (PDict items) true
  = Ok (Nat.eqb (List.length items) 0) /\
  matchDescription L (GroupAttribute [] b j) (PDict items) false = Ok false.
Proof.
  rewrite !matchDescription_Group.
  unfold Attribute_matchDescription. simpl.
  assert (Hc : forall strict, countMatches L [] strict items = Ok 0).
  { intros strict. induction items as [|[k v] items IH]; simpl; [reflexivity|].
    unfold childMatches. simpl. rewrite IH. reflexivity. }
  rewrite !Hc. simpl. split; [|reflexivity].
  f_equal. destruct items; reflexivity.
Qed.

Lemma attrMap_get_found (gd : list Attribute) (k : Py.value)
  (acc : option Attribute) (a : Attribute) :
  attrMap_get gd k acc = Some a ->
  (In a gd /\ key_is k (attr_name a) = true) \/ acc = Some a.
Proof.
  revert acc. induction gd as [|d gd IH]; intros acc; simpl; [auto|].
  intros H. apply IH in H as [[Hin Hk]|H]; [left; auto|].
  destruct (key_is k (attr_name d)) eqn:E; [|auto].
  injection H as <-. left. auto.
Qed.

Lemma countMatches_bound (gd : list Attribute) (strict : bool)
  (items : list (Py.value * Py.value)) (n : Z) :
  countMatches L gd strict items = Ok n ->
  0 <= n <= Z.of_nat (List.length items) /\
  (n = Z.of_nat (List.length items) ->
   Forall (fun kv => childMatches L gd strict (fst kv) (snd kv) = Ok true) items).
Proof.
  revert n. induction items as [|[k v] items IH]; intros n; simpl.
  - intros [= <-]. split; [lia|]. constructor.
  - destruct (childMatches L gd strict k v) as [m|e] eqn:Em; simpl; [|discriminate].
    destruct (countMatches L gd strict items) as [n'|e]; simpl; [|discriminate].
    destruct (IH n' eq_refl) as [Hb Hall].
    intros [= <-]. destruct m.
    + split; [lia|]. intros Heq. constructor; [exact Em|]. apply Hall. lia.
    + split; [lia|]. intros Heq. lia.
Qed.

Lemma countMatches_all (gd : list Attribute) (strict : bool)
  (items : list (Py.value * Py.value)) :
  Forall (fun kv => childMatches L gd strict (fst kv) (snd kv) = Ok true) items ->
  countMatches L gd strict items = Ok (Z.of_nat (List.length items)).
Proof.
  induction 1 as [|[k v] items Hkv _ IH]; simpl; [reflexivity|].
  simpl in Hkv. rewrite Hkv, IH. simpl. f_equal. lia.
Qed.

(** X17: a dict that matches a group in strict mode has as many items as
    the group has children, and each of its keys is the name of a child
    that its value matches. *)
Theorem matchDescription_strict_keys (gd : list Attribute) (b : AttrBase)
  (j : string) (items : list (Py.value * Py.value)) :
  matchDescription L (GroupAttribute gd b j) (PDict items) true = Ok true ->
  List.length items = List.length gd /\
  Forall (fun kv => exists a : Attribute,
                      In a gd /\ key_is (fst kv) (attr_name a) = true /\
                      matchDescription L a (snd kv) true = Ok true) items.
Proof.
  rewrite matchDescription_Group.
  destruct (Attribute_matchDescription L (GroupAttribute gd b j) (PDict items))
    as [[|]|e]; simpl; try discriminate.
  destruct (countMatches L gd true items) as [n|e] eqn:En; simpl; [|discriminate].
  intros [= H]. apply andb_true_iff in H as [H1 H2].
  apply Z.eqb_eq in H1, H2.
  split; [lia|].
  destruct (countMatches_bound _ _ _ _ En) as [_ Hall].
  specialize (Hall H1).
  eapply Forall_impl; [exact Hall|].
  intros [k v] Hkv. simpl in *. unfold childMatches in Hkv.
  destruct (attrMap_get gd k None) as [a|] eqn:Ea; [|discriminate].
  apply attrMap_get_found in Ea as [[Hin Hk]|Hn]; [|discriminate].
  exists a. auto.
Qed.

(** X18: for a descriptor whose groups all have a child, a value that
    matches in strict mode matches in non-strict mode. *)
Theorem matchDescription_strict_nonstrict (d : Attribute) (v : Py.value) :
  groups_nonempty d = true ->
  matchDescription L d v true = Ok true ->
  matchDescription L d v false = Ok true.
Proof.
  revert v. induction d using Attribute_nested_ind; intros v Hg Hm;
    try exact Hm.
  - simpl in *.
    destruct (Attribute_matchDescription L (ListAttribute d b j) v) as [ok|e];
      simpl in *; [|discriminate].
    destruct (negb ok); [discriminate|].
    destruct (truthy v); [|exact Hm].
    destruct (getitem0 v) as [v0|e]; simpl in *; [|discriminate].
    apply IHd; assumption.
  - rewrite matchDescription_Group in *.
    destruct (Attribute_matchDescription L (GroupAttribute gd b j) v) as [ok|e];
      simpl in *; [|discriminate].
    destruct (negb ok); [discriminate|].
    destruct v; try discriminate.
    destruct (countMatches L gd true items) as [n|e] eqn:En; simpl in Hm;
      [|discriminate].
    injection Hm as Hm. apply andb_true_iff in Hm as [H1 H2].
    apply Z.eqb_eq in H1, H2.
    destruct (countMatches_bound _ _ _ _ En) as [_ Hall].
    specialize (Hall H1).
    apply andb_true_iff in Hg as [Hne Hgs].
    assert (Hall' : Forall (fun kv => childMatches L gd false (fst kv) (snd kv)
                                      = Ok true) items).
    { eapply Forall_impl; [exact Hall|].
      intros [k v] Hkv. simpl in *. unfold childMatches in *.
      destruct (attrMap_get gd k None) as [a|] eqn:Ea; [|discriminate].
      apply attrMap_get_found in Ea as [[Hin Hk]|Hn]; [|discriminate].
      rewrite Forall_forall in H. apply H; [apply list_elem_of_In, Hin| |exact Hkv].
      rewrite forallb_forall in Hgs. apply Hgs, Hin. }
    rewrite (countMatches_all _ _ _ Hall'). simpl. f_equal.
    apply Z.ltb_lt.
    destruct gd; [discriminate|]. simpl in H2. lia.
Qed.

End MatchMore.

Lemma matchDescription_group_not_dict_witness :
  matchDescription plain_lib group_ab (PTuple [PInt 1; PInt 2]) false
  = Raise AttributeError.
Proof.
  apply (matchDescription_group_not_dict plain_lib
           [mkInt "a" (PInt 0) []; mkInt "b" (PInt 0) []]
           (mkBase "g" (PDict [])) " "
           (PTuple [PInt 1; PInt 2]) (PTuple [PInt 1; PInt 2]) false);
    reflexivity.
Defined.

Lemma matchDescription_strict_keys_witness :
  List.length [(PStr "a", PInt 1); (PStr "b", PInt 2)]
  = List.length [mkInt "a" (PInt 0) []; mkInt "b" (PInt 0) []] /\
  Forall (fun kv => exists a : Attribute,
                      In a [mkInt "a" (PInt 0) []; mkInt "b" (PInt 0) []] /\
                      key_is (fst kv) (attr_name a) = true /\
                      matchDescription plain_lib a (snd kv) true = Ok true)
    [(PStr "a", PInt 1); (PStr "b", PInt 2)].
Proof.
  apply (matchDescription_strict_keys plain_lib
           [mkInt "a" (PInt 0) []; mkInt "b" (PInt 0) []]
           (mkBase "g" (PDict [])) " "
           [(PStr "a", PInt 1); (PStr "b", PInt 2)]).
  reflexivity.
Defined.

Lemma matchDescription_strict_nonstrict_witness :
  matchDescription plain_lib group_ab
    (PDict [(PStr "a", PInt 1); (PStr "b", PInt 2)]) false = Ok true.
Proof.
  apply (matchDescription_strict_nonstrict plain_lib group_ab
           (PDict [(PStr "a", PInt 1); (PStr "b", PInt 2)]));
    reflexivity.
Defined.

End DescMore.

(** ** CommandExecutor: the other paths of [processChunk], and what
    [stopProcess] leaves alone *)

Module ExecMore.
Import Py.
Import Exec.
Import ExecFacts.

(** X19: when the process exits with code 0, [processChunk] returns; the
    chunk holds the exit code and the command line, its handle is [None],
    the log holds what the process printed and nothing of what it held
    before, and the status last saved is the one from before the launch:
    it has the command line but not the exit code. *)
Theorem processChunk_zero_exit (E : Env) (build : Chunk -> result string)
  (c : Chunk) (w : World) (cmd out : string) (pid : Z) :
  open_write_fails E (logFile c) = None ->
  build c = Ok cmd ->
  save_fails E = None ->
  popen_result E cmd = Ok pid ->
  communicate_result E pid = Ok out ->
  returncode E pid = 0 ->
  exists (c' : Chunk) (w' : World),
    processChunk E build (c, w) = (Ok tt, (c', w')) /\
    status c' = MkStatus (Some cmd) (Some 0) /\
    subprocess c' = Some None /\
    files w' !! logFile c = Some out /\
    statusFile w' = Some (MkStatus (Some cmd) (returnCode (status c))).
Proof.
  intros Ho Hb Hs Hp Hc Hrc.
  run. rewrite Ho. simpl. rewrite Hb. run. rewrite Hs. run. rewrite Hp. run.
  rewrite Hc. run. rewrite Hrc. simpl.
  eexists _, _. split; [reflexivity|]. simpl.
  rewrite !lookup_insert_eq. simpl. repeat split; reflexivity.
Qed.

Lemma processChunk_zero_exit_witness :
  exists (c' : Chunk) (w' : World),
    processChunk Samples.tree_env Samples.sample_build
      (Samples.fresh_chunk, Samples.empty_world) = (Ok tt, (c', w')) /\
    status c' = MkStatus (Some "aliceVision_run --input x"%string) (Some 0) /\
    subprocess c' = Some None /\
    files w' !! logFile Samples.fresh_chunk = Some EmptyString /\
    statusFile w' = Some (MkStatus (Some "aliceVision_run --input x"%string) None).
Proof.
  apply (processChunk_zero_exit Samples.tree_env Samples.sample_build
           Samples.fresh_chunk Samples.empty_world
           "aliceVision_run --input x" EmptyString 10); reflexivity.
Defined.

(** X20: when the process cannot be launched, the exception of the launch
    comes out; by then the log has been emptied and the status with the
    command line saved, the exit code of the chunk is as before, no
    process was added and the handle is [None]. *)
Theorem processChunk_launch_failure (E : Env) (build : Chunk -> result string)
  (c : Chunk) (w : World) (cmd : string) (e : exn) :
  open_write_fails E (logFile c) = None ->
  build c = Ok cmd ->
  save_fails E = None ->
  popen_result E cmd = Raise e ->
  exists (c' : Chunk) (w' : World),
    processChunk E build (c, w) = (Raise e, (c', w')) /\
    status c' = MkStatus (Some cmd) (returnCode (status c)) /\
    subprocess c' = Some None /\
    statusFile w' = Some (status c') /\
    files w' !! logFile c = Some EmptyString /\
    existing w' = existing w.
Proof.
  intros Ho Hb Hs Hp.
  run. rewrite Ho. simpl. rewrite Hb. run. rewrite Hs. run. rewrite Hp. run.
  eexists _, _. split; [reflexivity|]. simpl.
  rewrite lookup_insert_eq. repeat split; reflexivity.
Qed.

Lemma processChunk_launch_failure_witness :
  exists (c' : Chunk) (w' : World),
    processChunk
      (MkEnv (fun _ => None) None (fun _ => Raise OSError)
         (fun _ => Ok EmptyString) (fun _ => 0) (fun _ => []) utf8_decode)
      Samples.sample_build (Samples.fresh_chunk, Samples.empty_world)
    = (Raise OSError, (c', w')) /\
    status c' = MkStatus (Some "aliceVision_run --input x"%string)
                  (returnCode (status Samples.fresh_chunk)) /\
    subprocess c' = Some None /\
    statusFile w' = Some (status c') /\
    files w' !! logFile Samples.fresh_chunk = Some EmptyString /\
    existing w' = existing Samples.empty_world.
Proof.
  apply (processChunk_launch_failure
           (MkEnv (fun _ => None) None (fun _ => Raise OSError)
              (fun _ => Ok EmptyString) (fun _ => 0) (fun _ => []) utf8_decode)
           Samples.sample_build Samples.fresh_chunk Samples.empty_world
           "aliceVision_run --input x" OSError); reflexivity.
Defined.

(** When the command line cannot be built, that exception comes out
    after the log has been emptied: nothing is saved, nothing is launched,
    and the status of the chunk is as before. *)
Theorem processChunk_build_failure (E : Env) (build : Chunk -> result string)
  (c : Chunk) (w : World) (e : exn) :
  open_write_fails E (logFile c) = None ->
  build c = Raise e ->
  processChunk E build (c, w)
  = (Raise e,
     (set_subprocess None c,
      MkWorld (<[logFile c := EmptyString]> (files w)) (statusFile w)
        (existing w) (trace w ++ [EvOpenWrite (logFile c)]))).
Proof.
  intros Ho Hb. run. rewrite Ho. simpl. rewrite Hb. reflexivity.
Qed.

Lemma processChunk_build_failure_witness :
  processChunk Samples.failing_env (fun _ => Raise KeyError)
    (Samples.fresh_chunk, Samples.empty_world)
  = (Raise KeyError,
     (set_subprocess None Samples.fresh_chunk,
      MkWorld (<[logFile Samples.fresh_chunk := EmptyString]>
                 (files Samples.empty_world))
        (statusFile Samples.empty_world) (existing Samples.empty_world)
        (trace Samples.empty_world ++ [EvOpenWrite (logFile Samples.fresh_chunk)]))).
Proof.
  apply (processChunk_build_failure Samples.failing_env (fun _ => Raise KeyError)
           Samples.fresh_chunk Samples.empty_world KeyError); reflexivity.
Defined.

(** X21: [stopProcess] changes nothing of the chunk (its status and its
    handle stay), no file, not the saved status and not the set of
    processes; it only sends termination signals, to processes among the
    handle's process and descendants. *)
Theorem stopProcess_frame (E : Env) (c : Chunk) (w : World) :
  exists done : list Z,
    snd (stopProcess E (c, w))
    = (c, MkWorld (files w) (statusFile w) (existing w)
            (trace w ++ map EvTerminate done)) /\
    match subprocess c with
    | Some (Some pid) => prefix done (children E pid ++ [pid])
    | _ => done = []
    end.
Proof.
  unfold stopProcess. run.
  destruct (subprocess c) as [[pid|]|].
  - simpl. destruct (decide (pid ∈ existing w)) as [Hin|Hout]; simpl.
    + destruct (for_each_terminate (children E pid ++ [pid]) c w)
        as (done & Hpre & Hsnd & _).
      exists done. split; [|exact Hpre].
      destruct (for_each _ _ _) as [r s]. simpl in *. subst s.
      destruct r as [u|e]; [|destruct (is_NoSuchProcess e)]; reflexivity.
    + exists []. simpl. rewrite app_nil_r. destruct w.
      split; [reflexivity|apply prefix_nil].
  - exists []. simpl. rewrite app_nil_r. destruct w. auto.
  - exists []. simpl. rewrite app_nil_r. destruct w. auto.
Qed.

(** X22: after [processChunk], however it ended, [stopProcess] does
    nothing. *)
Theorem stopProcess_after_processChunk (E E' : Env)
  (build : Chunk -> result string) (c : Chunk) (w : World) :
  stopProcess E' (snd (processChunk E build (c, w)))
  = (Ok tt, snd (processChunk E build (c, w))).
Proof.
  pose proof (processChunk_clears_handle E build c w) as H.
  destruct (processChunk E build (c, w)) as [r [c' w']]. simpl in *.
  apply stopProcess_no_handle. auto.
Qed.

Lemma stopProcess_all_exist_witness :
  terminated (snd (snd (stopProcess Samples.tree_env
                          (Samples.running_chunk,
                           MkWorld ∅ None {[10; 11; 12]} []))))
  = terminated (MkWorld ∅ None {[10; 11; 12]} [])
    ++ children Samples.tree_env 10 ++ [10].
Proof.
  apply (stopProcess_all_exist Samples.tree_env Samples.running_chunk
           (MkWorld ∅ None {[10; 11; 12]} []) 10); [reflexivity|].
  simpl. repeat constructor; set_solver.
Defined.

End ExecMore.

(** ** Command lines *)

Module CommandLineFacts.
Import Py.
Import CommandLine.

Lemma append_empty_r (s : string) : s +:+ EmptyString = s.
Proof.
  induction s as [|c s IH]; [reflexivity|].
  change (String c (s +:+ EmptyString) = String c s). f_equal. exact IH.
Qed.

(** X24: when the node names no package version, or the version that is
    active in the environment starts with it, the command line is the one
    built without the launcher variable REZ_ENV: no prefix is added. *)
Theorem buildCommandLine_package_active (str_upper : string -> string)
  (environ : gmap string string)
  (format_str : string -> list (string * string) -> result string)
  (format_int : string -> list (string * Z) -> result string)
  (commandLineRange : string) (node : ChunkNode) (range : Range.Range) :
  packageVersion node = EmptyString \/
  String.prefix (packageVersion node)
    (default EmptyString
       (environ !! ("REZ_" +:+ str_upper (packageName node) +:+ "_VERSION"))) = true ->
  buildCommandLine str_upper environ format_str format_int commandLineRange
    node range
  = buildCommandLine str_upper (delete "REZ_ENV"%string environ) format_str
      format_int commandLineRange node range.
Proof.
  intros H. unfold buildCommandLine.
  assert (Hp : cmdPrefix str_upper environ node = EmptyString).
  { unfold cmdPrefix. destruct (environ !! "REZ_ENV"%string); [|reflexivity].
    destruct H as [H|H].
    - rewrite H. reflexivity.
    - rewrite H. destruct (truthy (PStr (packageVersion node))); reflexivity. }
  assert (Hp' : cmdPrefix str_upper (delete "REZ_ENV"%string environ) node
               = EmptyString).
  { unfold cmdPrefix. rewrite lookup_delete_eq. reflexivity. }
  rewrite Hp, Hp'. reflexivity.
Qed.

Lemma buildCommandLine_package_active_witness :
  buildCommandLine upper
    {[ "REZ_ENV"%string := "rez-env"%string;
       "REZ_ALICEVISION_VERSION"%string := "2.4.0-beta"%string ]}
    (fun t _ => Ok t) (fun t _ => Ok t) "--rangeStart {rangeStart}"
    (MkChunkNode "aliceVision" "2.4" "aliceVision-2.4" false 1
       "aliceVision_incrementalSfM {allParams}" [])
    (Range.MkRange 0 0 0)
  = buildCommandLine upper
      (delete "REZ_ENV"%string
         {[ "REZ_ENV"%string := "rez-env"%string;
            "REZ_ALICEVISION_VERSION"%string := "2.4.0-beta"%string ]})
      (fun t _ => Ok t) (fun t _ => Ok t) "--rangeStart {rangeStart}"
      (MkChunkNode "aliceVision" "2.4" "aliceVision-2.4" false 1
         "aliceVision_incrementalSfM {allParams}" [])
      (Range.MkRange 0 0 0).
Proof.
  apply (buildCommandLine_package_active upper
           {[ "REZ_ENV"%string := "rez-env"%string;
              "REZ_ALICEVISION_VERSION"%string := "2.4.0-beta"%string ]}
           (fun t _ => Ok t) (fun t _ => Ok t) "--rangeStart {rangeStart}"
           (MkChunkNode "aliceVision" "2.4" "aliceVision-2.4" false 1
              "aliceVision_incrementalSfM {allParams}" [])
           (Range.MkRange 0 0 0)).
  right. vm_compute. reflexivity.
Defined.

(** X25: for a node that is not parallelized, or whose size is at most 1,
    the command line depends neither on the range of the chunk nor on the
    range template, which is not even formatted. *)
Theorem buildCommandLine_unparallelized (str_upper : string -> string)
  (environ : gmap string string)
  (format_str : string -> list (string * string) -> result string)
  (format_int format_int' : string -> list (string * Z) -> result string)
  (commandLineRange commandLineRange' : string) (node : ChunkNode)
  (range range' : Range.Range) :
  isParallelized node = false \/ size node <= 1 ->
  buildCommandLine str_upper environ format_str format_int commandLineRange
    node range
  = buildCommandLine str_upper environ format_str format_int' commandLineRange'
      node range'
  /\ buildCommandLine str_upper environ format_str format_int commandLineRange
       node range
     = bind (format_str (commandLine node) (cmdVars node)) (fun body =>
         Ok (cmdPrefix str_upper environ node +:+ body)).
Proof.
  intros H. unfold buildCommandLine, cmdSuffix.
  assert (Hc : (isParallelized node && (size node >? 1))%bool = false).
  { destruct H as [-> | H]; [reflexivity|].
    apply andb_false_iff. right. rewrite Z.gtb_ltb. apply Z.ltb_ge. exact H. }
  rewrite Hc. simpl. split; [reflexivity|].
  destruct (format_str (commandLine node) (cmdVars node)); simpl; [|reflexivity].
  rewrite append_empty_r. reflexivity.
Qed.

Lemma buildCommandLine_unparallelized_witness :
  buildCommandLine upper ∅ (fun t _ => Ok t) (fun _ _ => Raise KeyError) "{missing}"
    (MkChunkNode "aliceVision" EmptyString "aliceVision" true 1 "aliceVision_run" [])
    (Range.MkRange 0 3 1)
  = buildCommandLine upper ∅ (fun t _ => Ok t) (fun t _ => Ok t) "--rangeStart {rangeStart}"
      (MkChunkNode "aliceVision" EmptyString "aliceVision" true 1 "aliceVision_run" [])
      (Range.MkRange 7 3 1)
  /\ buildCommandLine upper ∅ (fun t _ => Ok t) (fun _ _ => Raise KeyError) "{missing}"
       (MkChunkNode "aliceVision" EmptyString "aliceVision" true 1 "aliceVision_run" [])
       (Range.MkRange 0 3 1)
     = bind ((fun t _ => Ok t) "aliceVision_run"%string (@nil (string * string)))
         (fun body =>
            Ok (cmdPrefix upper ∅
                  (MkChunkNode "aliceVision" EmptyString "aliceVision" true 1
                     "aliceVision_run" []) +:+ body)).
Proof.
  apply (buildCommandLine_unparallelized upper ∅ (fun t _ => Ok t)
           (fun _ _ => Raise KeyError) (fun t _ => Ok t)
           "{missing}" "--rangeStart {rangeStart}"
           (MkChunkNode "aliceVision" EmptyString "aliceVision" true 1 "aliceVision_run" [])
           (Range.MkRange 0 3 1) (Range.MkRange 7 3 1)).
  right. simpl. lia.
Defined.

(** X26: once an [AVCommandLineNode] has been constructed, constructing
    another asks no probe and leaves the memory and core flags as they
    are, whatever the probes would answer. *)
Theorem AV_init_once (mem cpu mem' cpu' : Z) (cls : AVClass) :
  cgroupParsed (fst (AV_init mem cpu cls)) = true /\
  AV_init mem' cpu' (fst (AV_init mem cpu cls)) = (fst (AV_init mem cpu cls), []).
Proof.
  unfold AV_init. destruct (cgroupParsed cls) eqn:E; simpl.
  - rewrite E. auto.
  - auto.
Qed.

(** X27: when both probes answer zero or less, the command line of an
    [AVCommandLineNode] is the one of [CommandLineNode]: no limit flag is
    added. *)
Theorem AV_buildCommandLine_no_quota (mem cpu : Z) (base : result string) :
  mem <= 0 -> cpu <= 0 ->
  AV_buildCommandLine (fst (AV_init mem cpu AV_initial)) base = base.
Proof.
  intros Hm Hc. unfold AV_init, AV_initial. simpl.
  destruct (mem >? 0) eqn:Em; [apply Z.gtb_lt in Em; lia|].
  destruct (cpu >? 0) eqn:Ec; [apply Z.gtb_lt in Ec; lia|].
  unfold AV_buildCommandLine. simpl.
  destruct base as [cmd|e]; simpl; [|reflexivity].
  rewrite !append_empty_r. reflexivity.
Qed.

Lemma AV_buildCommandLine_no_quota_witness :
  AV_buildCommandLine (fst (AV_init (-1) 0 AV_initial)) (Ok "aliceVision_run"%string)
  = Ok "aliceVision_run"%string.
Proof.
  apply (AV_buildCommandLine_no_quota (-1) 0 (Ok "aliceVision_run"%string)); lia.
Defined.

End CommandLineFacts.

(** ** InitNode *)

Module InitNodeFacts.
Import Py.
Import InitNode.

Section Frame.
Context (op : Node.Attribute -> Py.value -> result Node.Attribute).

Lemma update_each_frame (dict : list (string * Py.value)) (node : Node.Node) :
  Node.size (snd (update_each op node dict)) = Node.size node /\
  dom (Node.attributes (snd (update_each op node dict)))
  = dom (Node.attributes node) /\
  forall nm : string,
    ~ In nm (map fst dict) ->
    Node.attributes (snd (update_each op node dict)) !! nm
    = Node.attributes node !! nm.
Proof.
  revert node. induction dict as [|[k v] dict IH]; intros node; simpl.
  - auto.
  - destruct (Node.attributes node !! k) as [a|] eqn:Ea.
    + destruct (op a v) as [a'|e]; simpl; [|auto].
      destruct (IH (Node.MkNode (Node.size node)
                      (<[k := a']> (Node.attributes node)))) as (Hs & Hd & Hf).
      simpl in *. split; [exact Hs|]. split.
      * rewrite Hd. apply dom_insert_lookup_L. rewrite Ea. eauto.
      * intros nm Hn. rewrite Hf by tauto.
        apply lookup_insert_ne. intros ->. tauto.
    + destruct (IH node) as (Hs & Hd & Hf).
      split; [exact Hs|]. split; [exact Hd|].
      intros nm Hn. apply Hf. tauto.
Qed.

Lemma update_each_absent (dict : list (string * Py.value)) (node : Node.Node) :
  Forall (fun kv => Node.attributes node !! fst kv = None) dict ->
  update_each op node dict = (Ok tt, node).
Proof.
  induction 1 as [|[k v] dict Hk _ IH]; simpl; [reflexivity|].
  simpl in Hk. rewrite Hk. exact IH.
Qed.

Lemma update_each_sets (dict : list (string * Py.value)) (node node' : Node.Node) :
  NoDup (map fst dict) ->
  update_each op node dict = (Ok tt, node') ->
  forall (k : string) (v : Py.value) (a : Node.Attribute),
    In (k, v) dict ->
    Node.attributes node !! k = Some a ->
    exists a' : Node.Attribute,
      op a v = Ok a' /\ Node.attributes node' !! k = Some a'.
Proof.
  revert node. induction dict as [|[k0 v0] dict IH]; intros node Hnd Hrun k v a Hin Ha;
    simpl in *; [contradiction|].
  apply NoDup_cons in Hnd as [Hk0 Hnd].
  destruct Hin as [[= -> ->]|Hin].
  - rewrite Ha in Hrun. destruct (op a v) as [a'|e] eqn:Eop; [|discriminate].
    exists a'. split; [reflexivity|].
    pose proof (update_each_frame dict
                  (Node.MkNode (Node.size node)
                     (<[k := a']> (Node.attributes node)))) as (_ & _ & Hf).
    rewrite Hrun in Hf. simpl in Hf.
    rewrite Hf; [apply lookup_insert_eq|].
    intros Hin'. apply Hk0. apply list_elem_of_In. exact Hin'.
  - assert (Hne : k0 <> k).
    { intros ->. apply Hk0. apply list_elem_of_In.
      apply in_map_iff. exists (k, v). auto. }
    destruct (Node.attributes node !! k0) as [a0|] eqn:Ea0.
    + destruct (op a0 v0) as [a0'|e]; [|discriminate].
      eapply IH; eauto. simpl. rewrite lookup_insert_ne by exact Hne. exact Ha.
    + eapply IH; eauto.
Qed.

End Frame.

(** X28: when [extendAttributes] returns, every key of the dict that
    names an attribute of the node has been extended: the attribute is
    what [extend] made of it with the value of the dict. *)
Theorem extendAttributes_extends
  (extend : Node.Attribute -> Py.value -> result Node.Attribute)
  (dict : list (string * Py.value)) (node node' : Node.Node)
  (k : string) (v : Py.value) (a : Node.Attribute) :
  NoDup (map fst dict) ->
  extendAttributes extend node dict = (Ok tt, node') ->
  In (k, v) dict ->
  Node.attributes node !! k = Some a ->
  exists a' : Node.Attribute,
    extend a v = Ok a' /\ Node.attributes node' !! k = Some a'.
Proof.
  intros Hnd Hrun Hin Ha. eapply update_each_sets; eauto.
Qed.

(** Keys that name no attribute of the node are skipped without an
    error: with only such keys, the node is left as it is. *)
Theorem setAttributes_unknown_keys
  (extend setValue : Node.Attribute -> Py.value -> result Node.Attribute)
  (dict : list (string * Py.value)) (node : Node.Node) :
  Forall (fun kv => Node.attributes node !! fst kv = None) dict ->
  setAttributes setValue node dict = (Ok tt, node) /\
  extendAttributes extend node dict = (Ok tt, node).
Proof.
  intros H. split; apply update_each_absent; exact H.
Qed.

Lemma setAttributes_unknown_keys_witness :
  setAttributes (fun a v => Raise ValueError) Samples2.list_node
    [("nope"%string, PInt 1)] = (Ok tt, Samples2.list_node) /\
  extendAttributes (fun a v => Raise ValueError) Samples2.list_node
    [("nope"%string, PInt 1)] = (Ok tt, Samples2.list_node).
Proof.
  apply (setAttributes_unknown_keys (fun a v => Raise ValueError)
           (fun a v => Raise ValueError) [("nope"%string, PInt 1)]
           Samples2.list_node).
  repeat constructor.
Defined.

(** X29: when [setAttributes] returns, every key of the dict that names an
    attribute of the node has been set: the attribute is what its setter
    made of it with the value of the dict. *)
Theorem setAttributes_sets
  (setValue : Node.Attribute -> Py.value -> result Node.Attribute)
  (dict : list (string * Py.value)) (node node' : Node.Node)
  (k : string) (v : Py.value) (a : Node.Attribute) :
  NoDup (map fst dict) ->
  setAttributes setValue node dict = (Ok tt, node') ->
  In (k, v) dict ->
  Node.attributes node !! k = Some a ->
  exists a' : Node.Attribute,
    setValue a v = Ok a' /\ Node.attributes node' !! k = Some a'.
Proof.
  intros Hnd Hrun Hin Ha. eapply update_each_sets; eauto.
Qed.

(** What [resetAttributes] makes of each attribute, for distinct
    names. *)
Lemma resetAttributes_lookup (resetValue : Node.Attribute -> Node.Attribute)
  (names : list string) (node : Node.Node) :
  NoDup names ->
  Node.size (resetAttributes resetValue node names) = Node.size node /\
  dom (Node.attributes (resetAttributes resetValue node names))
  = dom (Node.attributes node) /\
  forall nm : string,
    Node.attributes (resetAttributes resetValue node names) !! nm
    = if bool_decide (nm ∈ names)
      then resetValue <$> Node.attributes node !! nm
      else Node.attributes node !! nm.
Proof.
  revert node. induction names as [|n names IH]; intros node Hnd; simpl.
  - repeat split.
  - apply NoDup_cons in Hnd as [Hn Hnd].
    destruct (Node.attributes node !! n) as [a|] eqn:Ea.
    + destruct (IH (Node.MkNode (Node.size node)
                      (<[n := resetValue a]> (Node.attributes node))) Hnd)
        as (Hs & Hd & Hf).
      simpl in *. split; [exact Hs|]. split.
      * rewrite Hd. apply dom_insert_lookup_L. rewrite Ea. eauto.
      * intros nm. rewrite Hf.
        destruct (decide (nm = n)) as [->|Hne].
        -- rewrite (bool_decide_eq_false_2 _ Hn).
           rewrite (bool_decide_eq_true_2 (n ∈ n :: names)) by (apply elem_of_cons; auto).
           rewrite lookup_insert_eq, Ea. reflexivity.
        -- rewrite lookup_insert_ne by auto.
           destruct (bool_decide (nm ∈ names)) eqn:E.
           ++ apply bool_decide_eq_true_1 in E.
              rewrite (bool_decide_eq_true_2 (nm ∈ n :: names)) by (apply elem_of_cons; auto).
              reflexivity.
           ++ apply bool_decide_eq_false_1 in E.
              rewrite (bool_decide_eq_false_2 (nm ∈ n :: names)) by (rewrite elem_of_cons; tauto).
              reflexivity.
    + destruct (IH node Hnd) as (Hs & Hd & Hf).
      split; [exact Hs|]. split; [exact Hd|].
      intros nm. rewrite Hf.
      destruct (decide (nm = n)) as [->|Hne].
      * rewrite (bool_decide_eq_false_2 _ Hn).
        rewrite (bool_decide_eq_true_2 (n ∈ n :: names)) by (apply elem_of_cons; auto).
        rewrite Ea. reflexivity.
      * destruct (bool_decide (nm ∈ names)) eqn:E.
        -- apply bool_decide_eq_true_1 in E.
           rewrite (bool_decide_eq_true_2 (nm ∈ n :: names)) by (apply elem_of_cons; auto).
           reflexivity.
        -- apply bool_decide_eq_false_1 in E.
           rewrite (bool_decide_eq_false_2 (nm ∈ n :: names)) by (rewrite elem_of_cons; tauto).
           reflexivity.
Qed.

Lemma setAttributes_sets_witness :
  exists a' : Node.Attribute,
    (fun a v => Ok (Node.MkAttribute (Node.desc a) v (Node.linkParam a)))
      (Node.MkAttribute
         (Desc.mkList (Desc.mkInt "viewId" (PInt 0) []) "viewpoints")
         (PList [PInt 1; PInt 2; PInt 3]) None)
      (PList [PInt 9]) = Ok a' /\
    Node.attributes
      (snd (setAttributes
              (fun a v => Ok (Node.MkAttribute (Node.desc a) v (Node.linkParam a)))
              Samples2.list_node
              [("viewpoints"%string, PList [PInt 9]); ("nope"%string, PNone)]))
    !! "viewpoints"%string = Some a'.
Proof.
  apply (setAttributes_sets
           (fun a v => Ok (Node.MkAttribute (Node.desc a) v (Node.linkParam a)))
           [("viewpoints"%string, PList [PInt 9]); ("nope"%string, PNone)]
           Samples2.list_node
           (snd (setAttributes
                   (fun a v => Ok (Node.MkAttribute (Node.desc a) v (Node.linkParam a)))
                   Samples2.list_node
                   [("viewpoints"%string, PList [PInt 9]); ("nope"%string, PNone)]))
           "viewpoints" (PList [PInt 9])
           (Node.MkAttribute
              (Desc.mkList (Desc.mkInt "viewId" (PInt 0) []) "viewpoints")
              (PList [PInt 1; PInt 2; PInt 3]) None)).
  - repeat constructor; simpl; intros H;
      repeat (apply elem_of_cons in H as [H|H]; try discriminate);
      apply elem_of_nil in H; exact H.
  - reflexivity.
  - left. reflexivity.
  - reflexivity.
Defined.

(** X30: given distinct names, [resetAttributes] resets every named
    attribute that the node has: afterwards it is what [resetValue] makes
    of it. *)
Theorem resetAttributes_resets (resetValue : Node.Attribute -> Node.Attribute)
  (names : list string) (node : Node.Node) (k : string) (a : Node.Attribute) :
  NoDup names ->
  In k names ->
  Node.attributes node !! k = Some a ->
  Node.attributes (resetAttributes resetValue node names) !! k
  = Some (resetValue a).
Proof.
  intros Hnd Hin Ha.
  destruct (resetAttributes_lookup resetValue names node Hnd) as (_ & _ & Hf).
  rewrite Hf, Ha.
  rewrite bool_decide_eq_true_2 by (apply list_elem_of_In; exact Hin).
  reflexivity.
Qed.

Lemma resetAttributes_resets_witness :
  Node.attributes
    (resetAttributes
       (fun a => Node.MkAttribute (Node.desc a) (Desc.attr_value (Node.desc a)) None)
       Samples2.list_node ["viewpoints"%string; "nope"%string])
  !! "viewpoints"%string
  = Some (Node.MkAttribute
            (Desc.mkList (Desc.mkInt "viewId" (PInt 0) []) "viewpoints")
            (Desc.attr_value
               (Desc.mkList (Desc.mkInt "viewId" (PInt 0) []) "viewpoints"))
            None).
Proof.
  apply (resetAttributes_resets
           (fun a => Node.MkAttribute (Node.desc a) (Desc.attr_value (Node.desc a)) None)
           ["viewpoints"%string; "nope"%string] Samples2.list_node
           "viewpoints"
           (Node.MkAttribute
              (Desc.mkList (Desc.mkInt "viewId" (PInt 0) []) "viewpoints")
              (PList [PInt 1; PInt 2; PInt 3]) None)).
  - repeat constructor; intros H;
      repeat (apply elem_of_cons in H as [H|H]; try discriminate);
      apply elem_of_nil in H; exact H.
  - left. reflexivity.
  - reflexivity.
Defined.

Lemma extendAttributes_extends_witness :
  exists a' : Node.Attribute,
    (fun a v =>
       match Node.value a, v with
       | PList l, PList l' =>
           Ok (Node.MkAttribute (Node.desc a) (PList (l ++ l')) (Node.linkParam a))
       | _, _ => Raise TypeError
       end)
      (Node.MkAttribute
         (Desc.mkList (Desc.mkInt "viewId" (PInt 0) []) "viewpoints")
         (PList [PInt 1; PInt 2; PInt 3]) None)
      (PList [PInt 9]) = Ok a' /\
    Node.attributes
      (snd (extendAttributes
              (fun a v =>
                 match Node.value a, v with
                 | PList l, PList l' =>
                     Ok (Node.MkAttribute (Node.desc a) (PList (l ++ l'))
                           (Node.linkParam a))
                 | _, _ => Raise TypeError
                 end)
              Samples2.list_node
              [("viewpoints"%string, PList [PInt 9]); ("nope"%string, PNone)]))
    !! "viewpoints"%string = Some a'.
Proof.
  apply (extendAttributes_extends
           (fun a v =>
              match Node.value a, v with
              | PList l, PList l' =>
                  Ok (Node.MkAttribute (Node.desc a) (PList (l ++ l'))
                        (Node.linkParam a))
              | _, _ => Raise TypeError
              end)
           [("viewpoints"%string, PList [PInt 9]); ("nope"%string, PNone)]
           Samples2.list_node
           (snd (extendAttributes
                   (fun a v =>
                      match Node.value a, v with
                      | PList l, PList l' =>
                          Ok (Node.MkAttribute (Node.desc a) (PList (l ++ l'))
                                (Node.linkParam a))
                      | _, _ => Raise TypeError
                      end)
                   Samples2.list_node
                   [("viewpoints"%string, PList [PInt 9]); ("nope"%string, PNone)]))
           "viewpoints" (PList [PInt 9])
           (Node.MkAttribute
              (Desc.mkList (Desc.mkInt "viewId" (PInt 0) []) "viewpoints")
              (PList [PInt 1; PInt 2; PInt 3]) None)).
  - repeat constructor; simpl; intros H;
      repeat (apply elem_of_cons in H as [H|H]; try discriminate);
      apply elem_of_nil in H; exact H.
  - reflexivity.
  - left. reflexivity.
  - reflexivity.
Defined.

End InitNodeFacts.
